(** * ea-framework-js: coordination core

    A shallow embedding of five pieces of the framework,

    - [src/transports/websocket.ts]   (module [WebSocketTransport]),
    - [src/util/subscription-set/redis-sorted-set.ts]
                                      (module [RedisSubscriptionSet]),
    - [src/adapter/endpoint.ts]       (module [AdapterEndpoint]),
    - [src/cache/factory.ts]          (module [CacheFactory]),
    - [src/metrics/index.ts]          (module [Metrics]),

    followed by the properties established about them.

    Conventions.  Epoch milliseconds and durations are integers ([Z]);
    every call of [Date.now()] is an explicit argument, one per call
    site, in program order.  A method that can throw returns a
    [Completion].  Logging, metrics and the final [sleep] of a tick have
    no influence on the state described here and are left out. *)

From Stdlib Require Import ZArith List String Ascii Bool Lia.
From Stdlib Require Import Decimal DecimalString DecimalNat.
Import ListNotations.

Local Open Scope string_scope.
Local Open Scope list_scope.
Local Open Scope Z_scope.

(* ================================================================== *)
(** * Part I. The programs                                             *)
(* ================================================================== *)

(** ** JavaScript odds and ends *)

(** [JSON.stringify] and [JSON.parse] at a type of JavaScript values.
    [JSON.parse] throws on malformed text: [None]. *)
Class Json (T : Type) : Type := {
  JSON_stringify : T -> string;
  JSON_parse : string -> option T
}.

(** The values that survive a trip through JSON. *)
Class JsonRoundTrip (T : Type) `{Json T} : Prop :=
  parse_stringify : forall v : T, JSON_parse (JSON_stringify v) = Some v.

(** Natural numbers, printed in decimal as JSON does. *)
#[export] Instance Json_nat : Json nat := {|
  JSON_stringify := fun n => NilZero.string_of_uint (Nat.to_uint n);
  JSON_parse := fun s => option_map Nat.of_uint (NilZero.uint_of_string s)
|}.

(** What a method call produces: a value, or a thrown error. *)
Inductive Completion (E A : Type) : Type :=
| Return (value : A)
| Throw (error : E).
Arguments Return {E A} value.
Arguments Throw {E A} error.

Definition isSome {A : Type} (o : option A) : bool :=
  match o with Some _ => true | None => false end.

(** [xs.length] used as a condition. *)
Definition nonEmpty {A : Type} (xs : list A) : bool :=
  match xs with [] => false | _ :: _ => true end.

(** [for (...) { if (!ok) throw }] over a list: the results when every
    element has one, [None] as soon as one has none. *)
Fixpoint mapM {A B : Type} (f : A -> option B) (xs : list A) : option (list B) :=
  match xs with
  | [] => Some []
  | x :: xs' =>
      match f x with
      | None => None
      | Some y => option_map (cons y) (mapM f xs')
      end
  end.

(* ------------------------------------------------------------------ *)
(** ** src/transports/websocket.ts                                     *)
(* ------------------------------------------------------------------ *)

Module WebSocket.

(** [readyState] of a socket of the [ws] package. *)
Inductive ReadyState : Set := CONNECTING | OPEN | CLOSING | CLOSED.

Definition ReadyState_eqb (a b : ReadyState) : bool :=
  match a, b with
  | CONNECTING, CONNECTING | OPEN, OPEN | CLOSING, CLOSING | CLOSED, CLOSED => true
  | _, _ => false
  end.

Record t : Set := mk { url : string; readyState : ReadyState }.

(** [socket.close()]: a socket that is not yet closed starts closing. *)
Definition close (socket : t) : t :=
  match readyState socket with
  | CLOSED => socket
  | _ => mk (url socket) CLOSING
  end.

End WebSocket.

Module Timestamps.
Record t : Set := mk {
  providerDataStreamEstablished : Z;
  providerDataReceived : Z;
  providerIndicatedTime : option Z
}.
End Timestamps.

Module WebSocketTransport.

(** A payload of type [unknown]: a string, or any other value. *)
Inductive Unknown (P : Type) : Type :=
| UString (s : string)
| UValue (v : P).
Arguments UString {P} s.
Arguments UValue {P} v.

(** What the user's message handler returns for one subscription: the
    parameters, the response body, and the provider's own time when the
    response already carries [timestamps.providerIndicatedTime]. *)
Record ProviderResult (P R : Type) : Type := mkProviderResult {
  params : P;
  response : R;
  indicatedTime : option Z
}.
Arguments mkProviderResult {P R}.
Arguments params {P R}.
Arguments response {P R}.
Arguments indicatedTime {P R}.

Record TimestampedProviderResult (P R : Type) : Type := mkTimestamped {
  result : ProviderResult P R;
  timestamps : Timestamps.t
}.
Arguments mkTimestamped {P R}.
Arguments result {P R}.
Arguments timestamps {P R}.

Record SubscriptionDeltas (P : Type) : Type := mkDeltas {
  new : list P;
  stale : list P;
  desired : list P
}.
Arguments mkDeltas {P}.
Arguments new {P}.
Arguments stale {P}.
Arguments desired {P}.

Record Builders (P : Type) : Type := mkBuilders {
  subscribeMessage : option (P -> Unknown P);
  unsubscribeMessage : option (P -> Unknown P)
}.
Arguments mkBuilders {P}.
Arguments subscribeMessage {P}.
Arguments unsubscribeMessage {P}.

(** [WebSocketTransportConfig]: [P] are the request parameters, [W] the
    provider's messages, [R] the response bodies.  The endpoint context
    is fixed for a transport and is not an argument here; [options] and
    the [open] handler only matter through the way the connection
    attempt ends, see [Establish] below. *)
Record WebSocketTransportConfig (P W R : Type) : Type := mkConfig {
  url : list P -> string;
  message : W -> list P -> option (list (ProviderResult P R));
  builders : option (Builders P)
}.
Arguments mkConfig {P W R}.
Arguments url {P W R}.
Arguments message {P W R}.
Arguments builders {P W R}.

(** The fields of a [WebSocketTransport] instance;
    [providerDataStreamEstablished] is inherited from [StreamingTransport]. *)
Record State (P : Type) : Type := mkState {
  wsConnection : option WebSocket.t;
  currentUrl : string;
  lastMessageReceivedAt : Z;
  connectionOpenedAt : Z;
  desiredSubscriptions : list P;
  providerDataStreamEstablished : Z
}.
Arguments mkState {P}.
Arguments wsConnection {P}.
Arguments currentUrl {P}.
Arguments lastMessageReceivedAt {P}.
Arguments connectionOpenedAt {P}.
Arguments desiredSubscriptions {P}.
Arguments providerDataStreamEstablished {P}.

(** A transport fresh from its constructor. *)
Definition initial {P : Type} : State P :=
  mkState None EmptyString 0 0 [] 0.

(** What the transport does to the outside world, in order. *)
Inductive Event : Set :=
| WsClose                      (* this.wsConnection.close() *)
| WsNew (url : string)         (* new ctor(url, undefined, options) *)
| WsSend (message : string).   (* this.wsConnection.send(message) *)

(** How an awaited promise ends: it resolves, it rejects, or it is still
    pending when the observation stops. *)
Inductive Settled : Set := Resolved | Rejected | Pending.

(** How the promise of [establishWsConnection] ends for a URL, and the
    [readyState] the new socket is left in when it does not resolve. *)
Record Establish : Set := mkEstablish {
  settles : Settled;
  leaves : WebSocket.ReadyState
}.

(** The three [Date.now()] of one tick of [streamHandler]. *)
Record Clock : Set := mkClock {
  now : Z;              (* const now = Date.now() *)
  establishedAt : Z;    (* this.providerDataStreamEstablished = Date.now() *)
  openedAt : Z          (* this.connectionOpenedAt = Date.now() *)
}.

(** One call of [streamHandler]: the fields afterwards, the deltas object
    afterwards (the caller's object is assigned to), the events, and how
    the returned promise ends. *)
Record Tick (P : Type) : Type := mkTick {
  state : State P;
  subscriptions : SubscriptionDeltas P;
  events : list Event;
  settled : Settled
}.
Arguments mkTick {P}.
Arguments state {P}.
Arguments subscriptions {P}.
Arguments events {P}.
Arguments settled {P}.

Section Methods.
Context {P W R : Type} `{Json P} `{Json W}.

Definition connectionClosed (this : State P) : bool :=
  match wsConnection this with
  | None => true
  | Some socket => WebSocket.ReadyState_eqb (WebSocket.readyState socket) WebSocket.CLOSED
  end.

Definition serializeMessage (payload : Unknown P) : string :=
  match payload with
  | UString s => s
  | UValue v => JSON_stringify v
  end.

Definition deserializeMessage (data : string) : option W := JSON_parse data.

Definition sendMessages (subscribes unsubscribes : list (Unknown P)) : list Event :=
  let serializedSubscribes := map serializeMessage subscribes in
  let serializedUnsubscribes := map serializeMessage unsubscribes in
  let messages := serializedSubscribes ++ serializedUnsubscribes in
  map WsSend messages.

(** [builder ? xs.map(builder) : xs] *)
Definition build (builder : option (P -> Unknown P)) (xs : list P) : list (Unknown P) :=
  match builder with
  | Some f => map f xs
  | None => map UValue xs
  end.

(** The end of [streamHandler], from [if (this.config.builders)] on. *)
Definition sendSubscriptions (config : WebSocketTransportConfig P W R)
    (subscriptions : SubscriptionDeltas P) : list Event :=
  match builders config with
  | Some b =>
      sendMessages (build (subscribeMessage b) (new subscriptions))
                   (build (unsubscribeMessage b) (stale subscriptions))
  | None => []
  end.

(** [streamHandler(context, subscriptions)].  Of the context only
    [adapterConfig.WS_SUBSCRIPTION_UNRESPONSIVE_TTL] is read; the awaited
    [config.url] is taken to return; [establishWsConnection] tells how
    the awaited connection attempt ends, in which case the [ws]
    constructor has been called and the new socket assigned. *)
Definition streamHandler (config : WebSocketTransportConfig P W R)
    (WS_SUBSCRIPTION_UNRESPONSIVE_TTL : Z)
    (establishWsConnection : string -> Establish)
    (clock : Clock)
    (this : State P) (subscriptions : SubscriptionDeltas P) : Tick P :=
  let this :=
    mkState (wsConnection this) (currentUrl this) (lastMessageReceivedAt this)
            (connectionOpenedAt this) (desired subscriptions)
            (providerDataStreamEstablished this) in
  if negb (nonEmpty (new subscriptions)) && negb (isSome (wsConnection this)) then
    mkTick this subscriptions [] Resolved
  else
    let urlFromConfig := url config (desiredSubscriptions this) in
    let urlChanged := negb (String.eqb (currentUrl this) urlFromConfig) in
    let now := now clock in
    let timeSinceLastMessage := Z.max 0 (now - lastMessageReceivedAt this) in
    let timeSinceConnectionOpened := Z.max 0 (now - connectionOpenedAt this) in
    let timeSinceLastActivity := Z.min timeSinceLastMessage timeSinceConnectionOpened in
    let connectionUnresponsive :=
      (0 <? timeSinceLastActivity) &&
      (WS_SUBSCRIPTION_UNRESPONSIVE_TTL <? timeSinceLastActivity) in
    let connectionClosed0 := connectionClosed this in
    let closing := negb connectionClosed0 && (urlChanged || connectionUnresponsive) in
    let this :=
      if closing then
        mkState (option_map WebSocket.close (wsConnection this)) (currentUrl this)
                (lastMessageReceivedAt this) (connectionOpenedAt this)
                (desiredSubscriptions this) (providerDataStreamEstablished this)
      else this in
    let closeEvents := if closing then [WsClose] else [] in
    let connectionClosed1 := if closing then true else connectionClosed0 in
    let subscriptions :=
      if closing then
        mkDeltas (desiredSubscriptions this) (stale subscriptions) (desired subscriptions)
      else subscriptions in
    if connectionClosed1 && nonEmpty (desiredSubscriptions this) then
      let connecting socketState :=
        mkState (Some (WebSocket.mk urlFromConfig socketState)) urlFromConfig
                (lastMessageReceivedAt this) (connectionOpenedAt this)
                (desiredSubscriptions this) (establishedAt clock) in
      let openEvents := closeEvents ++ [WsNew urlFromConfig] in
      let attempt := establishWsConnection urlFromConfig in
      match settles attempt with
      | Resolved =>
          let this := connecting WebSocket.OPEN in
          let this :=
            mkState (wsConnection this) (currentUrl this) (lastMessageReceivedAt this)
                    (openedAt clock) (desiredSubscriptions this)
                    (providerDataStreamEstablished this) in
          mkTick this subscriptions
                 (openEvents ++ sendSubscriptions config subscriptions) Resolved
      | Rejected => mkTick (connecting (leaves attempt)) subscriptions openEvents Rejected
      | Pending => mkTick (connecting (leaves attempt)) subscriptions openEvents Pending
      end
    else
      mkTick this subscriptions
             (closeEvents ++ sendSubscriptions config subscriptions) Resolved.

(** The result of the [message] listener for one inbound frame: the
    fields afterwards, the argument of [responseCache.write] when it is
    called, and whether deserializing the frame threw (then
    [rejectionHandler] rejects the pending connection promise).  The
    user's handler is taken to return and the write to succeed. *)
Record Inbound : Type := mkInbound {
  after : State P;
  written : option (list (TimestampedProviderResult P R));
  threw : bool
}.

(** The [map] callback of the listener: stamp one result. *)
Definition stamp (this : State P) (providerDataReceived : Z)
    (r : ProviderResult P R) : TimestampedProviderResult P R :=
  mkTimestamped r
    (Timestamps.mk (providerDataStreamEstablished this)
                   providerDataReceived
                   (indicatedTime r)).

(** The [message] listener built by [buildConnectionHandlers];
    [providerDataReceived] and [receivedAt] are its two [Date.now()]. *)
Definition onMessage (config : WebSocketTransportConfig P W R)
    (this : State P) (data : string)
    (providerDataReceived receivedAt : Z) : Inbound :=
  match deserializeMessage data with
  | None => mkInbound this None true
  | Some parsed =>
      let results :=
        option_map (map (stamp this providerDataReceived))
                   (message config parsed (desiredSubscriptions this)) in
      match results with
      | Some results =>
          let this :=
            mkState (wsConnection this) (currentUrl this) receivedAt
                    (connectionOpenedAt this) (desiredSubscriptions this)
                    (providerDataStreamEstablished this) in
          mkInbound this (Some results) false
      | None => mkInbound this None false
      end
  end.

End Methods.

End WebSocketTransport.

(* ------------------------------------------------------------------ *)
(** ** What the source throws                                          *)
(* ------------------------------------------------------------------ *)

Inductive Exception : Set :=
| Error (message : string)          (* new Error(message) *)
| SyntaxError                       (* JSON.parse on malformed text *)
| AdapterError (statusCode : Z).    (* new AdapterError({ statusCode, message }) *)

(** The double quote character, for messages that quote a name. *)
Definition dquote : string := String (ascii_of_nat 34) EmptyString.

(* ------------------------------------------------------------------ *)
(** ** The Redis commands the source calls                             *)
(* ------------------------------------------------------------------ *)

(** Redis is outside the repository; these are its commands as the Redis
    command reference defines them, for the one sorted set stored under
    [subscriptionSetKey]. *)
Module Redis.

(** Members are unique and carry a score; [ZRANGE] order is by score,
    then by member bytes.  The list is kept in that order. *)
Definition SortedSet : Set := list (string * Z).

Definition entry_leb (a b : string * Z) : bool :=
  (snd a <? snd b) || ((snd a =? snd b) && String.leb (fst a) (fst b)).

Fixpoint insert (e : string * Z) (s : SortedSet) : SortedSet :=
  match s with
  | [] => [e]
  | x :: s' => if entry_leb e x then e :: s else x :: insert e s'
  end.

Definition zrem (s : SortedSet) (member : string) : SortedSet :=
  filter (fun e => negb (String.eqb (fst e) member)) s.

(** [ZADD key score member]: adds the member, or moves it to the new
    score when it is already there. *)
Definition zadd (s : SortedSet) (score : Z) (member : string) : SortedSet :=
  insert (member, score) (zrem s member).

(** [ZREMRANGEBYSCORE key -inf max]: removes every member whose score is
    at most [max]; the bounds of a score range are inclusive. *)
Definition zremrangebyscore_from_neg_inf (s : SortedSet) (max : Z) : SortedSet :=
  filter (fun e => negb (snd e <=? max)) s.

(** [ZRANGE key 0 -1]: every member, in order. *)
Definition zrange_all (s : SortedSet) : list string := map fst s.

End Redis.

(* ------------------------------------------------------------------ *)
(** ** src/util/subscription-set/redis-sorted-set.ts                   *)
(* ------------------------------------------------------------------ *)

Module RedisSubscriptionSet.

Definition DELIMITER : ascii := ">"%char.

(** [s.split(d)] for a separator of one character. *)
Fixpoint split (d : ascii) (s : string) : list string :=
  match s with
  | EmptyString => [EmptyString]
  | String c s' =>
      if Ascii.eqb c d then EmptyString :: split d s'
      else match split d s' with
           | [] => [String c EmptyString]
           | piece :: pieces => String c piece :: pieces
           end
  end.

(** [s] holds no [d]. *)
Fixpoint free_of (d : ascii) (s : string) : bool :=
  match s with
  | EmptyString => true
  | String c s' => negb (Ascii.eqb c d) && free_of d s'
  end.

Section Methods.
Context {T : Type} `{Json T}.

(** [`${key}${DELIMITER}${JSON.stringify(value)}`] *)
Definition storedValue (key : string) (value : T) : string :=
  (key ++ String DELIMITER (JSON_stringify value))%string.

(** [add(key, value, ttl)], with its [Date.now()]. *)
Definition add (store : Redis.SortedSet) (key : string) (value : T) (ttl : Z)
    (now : Z) : Redis.SortedSet :=
  Redis.zadd store (now + ttl) (storedValue key value).

(** [JSON.parse(entry.split(DELIMITER)[1])]; index 1 of a one-element
    array is [undefined], which [JSON.parse] rejects. *)
Definition parseEntry (entry : string) : option T :=
  match nth_error (split DELIMITER entry) 1 with
  | Some text => JSON_parse text
  | None => None
  end.

(** [getAll()], with its [Date.now()]: the sorted set afterwards and the
    array returned, or the error of the first entry that does not parse. *)
Definition getAll (store : Redis.SortedSet) (now : Z)
    : Redis.SortedSet * Completion Exception (list T) :=
  let store := Redis.zremrangebyscore_from_neg_inf store now in
  let validEntries := Redis.zrange_all store in
  (store,
   match mapM parseEntry validEntries with
   | Some parsedRequests => Return parsedRequests
   | None => Throw SyntaxError
   end).

End Methods.

End RedisSubscriptionSet.

(* ------------------------------------------------------------------ *)
(** ** src/adapter/endpoint.ts                                         *)
(* ------------------------------------------------------------------ *)

Module AdapterEndpoint.

Definition DEFAULT_TRANSPORT_NAME : string := "default_single_transport".

(** The part of a request that routing reads: [req.body.data?.transport],
    next to whatever else the request holds (a custom router may look at
    all of it). *)
Record AdapterRequest (D : Type) : Type := mkRequest {
  body : D;
  transport : option string
}.
Arguments mkRequest {D}.
Arguments body {D}.
Arguments transport {D}.

(** The two shapes of [AdapterEndpointParams]: a [transports] object
    (its own keys in enumeration order) with optional router and default,
    or one [transport]. *)
Inductive AdapterEndpointParams (T D : Type) : Type :=
| withTransports (transports : list (string * T))
                 (customRouter : option (AdapterRequest D -> option string))
                 (defaultTransport : option string)
| withTransport (transport : T).
Arguments withTransports {T D}.
Arguments withTransport {T D}.

(** The routing fields of an [AdapterEndpoint]. *)
Record t (T D : Type) : Type := mk {
  transports : list (string * T);
  customRouter : option (AdapterRequest D -> option string);
  defaultTransport : option string
}.
Arguments mk {T D}.
Arguments transports {T D}.
Arguments customRouter {T D}.
Arguments defaultTransport {T D}.

(** [/^[a-z]+$/.test(name)] *)
Definition isLowercaseLetter (c : ascii) : bool :=
  (97 <=? nat_of_ascii c)%nat && (nat_of_ascii c <=? 122)%nat.

Definition validTransportName (name : string) : bool :=
  let chars := list_ascii_of_string name in
  nonEmpty chars && forallb isLowercaseLetter chars.

(** [s.toLowerCase()] on ASCII; other bytes are left as they are. *)
Definition toLowerAscii (c : ascii) : ascii :=
  let n := nat_of_ascii c in
  if ((65 <=? n) && (n <=? 90))%nat then ascii_of_nat (n + 32) else c.

Fixpoint toLowerCase (s : string) : string :=
  match s with
  | EmptyString => EmptyString
  | String c s' => String (toLowerAscii c) (toLowerCase s')
  end.

(** Property names every plain object inherits from [Object.prototype];
    reading one of them from an object that does not define it yields a
    function or object, which is truthy. *)
Definition Object_prototype : list string :=
  [ "constructor"; "__defineGetter__"; "__defineSetter__"; "hasOwnProperty";
    "__lookupGetter__"; "__lookupSetter__"; "isPrototypeOf";
    "propertyIsEnumerable"; "toString"; "valueOf"; "__proto__";
    "toLocaleString" ].

Fixpoint ownProperty {T : Type} (o : list (string * T)) (k : string) : option T :=
  match o with
  | [] => None
  | (k', v) :: o' => if String.eqb k' k then Some v else ownProperty o' k
  end.

(** [o[k]] used as a condition, for an object whose own values are
    transports (objects, hence truthy). *)
Definition truthyProperty {T : Type} (o : list (string * T)) (k : string) : bool :=
  isSome (ownProperty o k) || existsb (String.eqb k) Object_prototype.

(** A string or [undefined] used as a condition. *)
Definition truthy (s : option string) : bool :=
  match s with
  | Some EmptyString | None => false
  | Some _ => true
  end.

(** [a || b] *)
Definition or_else (a b : option string) : option string :=
  if truthy a then a else b.

Section Methods.
Context {T D : Type}.

(** The constructor, as far as the routing fields go. *)
Definition constructor (params : AdapterEndpointParams T D)
    : Completion Exception (t T D) :=
  match params with
  | withTransports transports customRouter defaultTransport =>
      match find (fun name => negb (validTransportName name)) (map fst transports) with
      | Some transportName =>
          Throw (Error ("Transport name " ++ dquote ++ transportName ++ dquote ++
            " is invalid. Names in the AdapterEndpoint transports map can only include lowercase letters.")%string)
      | None => Return (mk transports customRouter defaultTransport)
      end
  | withTransport transport =>
      Return (mk [(DEFAULT_TRANSPORT_NAME, transport)] None None)
  end.

Definition defaultRouter (req : AdapterRequest D) : option string :=
  transport req.

Definition getTransportNameForRequest (this : t T D) (req : AdapterRequest D)
    : Completion Exception string :=
  if truthyProperty (transports this) DEFAULT_TRANSPORT_NAME then
    Return DEFAULT_TRANSPORT_NAME
  else
    let rawTransportName :=
      or_else (or_else (match customRouter this with
                        | Some router => router req
                        | None => None
                        end)
                       (defaultRouter req))
              (defaultTransport this) in
    if negb (truthy rawTransportName) then Throw (AdapterError 400)
    else
      match rawTransportName with
      | None => Throw (AdapterError 400)   (* not reached: undefined is falsy *)
      | Some rawTransportName =>
          let transportName := toLowerCase rawTransportName in
          if negb (truthyProperty (transports this) transportName) then
            Throw (AdapterError 400)
          else Return transportName
      end.

End Methods.

(** *** Routing, with the library's lowercasing given

    [String.prototype.toLowerCase] also maps letters outside ASCII;
    [getTransportNameForRequestBy lowercase] is the method with that
    function as an argument, and [getTransportNameForRequest] above is
    its instance for names written in ASCII. *)
Definition getTransportNameForRequestBy {T D : Type} (lowercase : string -> string)
    (this : t T D) (req : AdapterRequest D) : Completion Exception string :=
  if truthyProperty (transports this) DEFAULT_TRANSPORT_NAME then
    Return DEFAULT_TRANSPORT_NAME
  else
    let rawTransportName :=
      or_else (or_else (match customRouter this with
                        | Some router => router req
                        | None => None
                        end)
                       (defaultRouter req))
              (defaultTransport this) in
    if negb (truthy rawTransportName) then Throw (AdapterError 400)
    else
      match rawTransportName with
      | None => Throw (AdapterError 400)   (* not reached: undefined is falsy *)
      | Some rawTransportName =>
          let transportName := lowercase rawTransportName in
          if negb (truthyProperty (transports this) transportName) then
            Throw (AdapterError 400)
          else Return transportName
      end.

(** *** Routing as the specification words it

    "If a transport is registered under the single-transport name, use
    it; else try the custom router, then the request's transport field,
    then the default transport; if none resolves, 400; unknown transport
    name, 400."  A candidate resolves when it is a non-empty string; a
    name is known when reading it, lowercased, from the transports object
    gives something. *)
Definition firstResolved (candidates : list (option string)) : option string :=
  match find truthy candidates with
  | Some (Some name) => Some name
  | _ => None
  end.

Definition routeBySpecBy {T D : Type} (lowercase : string -> string)
    (this : t T D) (req : AdapterRequest D) : Completion Exception string :=
  match ownProperty (transports this) DEFAULT_TRANSPORT_NAME with
  | Some _ => Return DEFAULT_TRANSPORT_NAME
  | None =>
      let routed := match customRouter this with
                    | Some router => router req
                    | None => None
                    end in
      match firstResolved [routed; transport req; defaultTransport this] with
      | None => Throw (AdapterError 400)
      | Some name =>
          if truthyProperty (transports this) (lowercase name)
          then Return (lowercase name)
          else Throw (AdapterError 400)
      end
  end.

End AdapterEndpoint.

(* ------------------------------------------------------------------ *)
(** ** src/cache/factory.ts                                            *)
(* ------------------------------------------------------------------ *)

Module CacheFactory.

(** The two cache classes; [Redis] is the type of clients. *)
Inductive Cache (Redis : Type) : Type :=
| LocalCache                        (* new LocalCache() *)
| RedisCache (redisClient : Redis). (* new RedisCache(redisClient) *)
Arguments LocalCache {Redis}.
Arguments RedisCache {Redis} redisClient.

(** [buildCache(cacheType, redisClient?)].  The [switch] has no
    [default]: for any other string the function runs off its end and
    returns [undefined], here [Return None]. *)
Definition buildCache {Redis : Type} (cacheType : string) (redisClient : option Redis)
    : Completion Exception (option (Cache Redis)) :=
  if String.eqb cacheType "local" then Return (Some LocalCache)
  else if String.eqb cacheType "redis" then
    match redisClient with
    | None => Throw (Error "Redis client undefined. Cannot create Redis cache")
    | Some client => Return (Some (RedisCache client))
    end
  else Return None.

End CacheFactory.

(* ------------------------------------------------------------------ *)
(** ** Readings of a tick's events, and a small adapter to run         *)
(* ------------------------------------------------------------------ *)

Module Trace.
Import WebSocketTransport.

(** The socket is closed, and no message is sent before that. *)
Fixpoint closesBeforeSending (es : list Event) : bool :=
  match es with
  | [] => false
  | WsClose :: _ => true
  | WsSend _ :: _ => false
  | WsNew _ :: es' => closesBeforeSending es'
  end.

Definition isSend (e : Event) : bool :=
  match e with WsSend _ => true | _ => false end.

End Trace.

(** A price feed whose provider takes the subscriptions in the URL
    ([byUrl], no builders) or in messages ([byMessage]).  Parameters,
    messages and responses are numbers; message [0] is a heartbeat the
    handler ignores, message [1] is an acknowledgement that carries no
    price, any other message is a price for the pair of that number. *)
Module Feed.
Import WebSocketTransport.

Definition handler (m : nat) (_ : list nat) : option (list (ProviderResult nat nat)) :=
  match m with
  | O => None
  | S O => Some []
  | _ => Some [mkProviderResult m m None]
  end.

Definition urlFor (desiredSubs : list nat) : string :=
  match desiredSubs with
  | _ :: _ :: _ => "wss://b"
  | _ => "wss://a"
  end.

Definition byUrl : WebSocketTransportConfig nat nat nat :=
  mkConfig urlFor handler None.

Definition byMessage : WebSocketTransportConfig nat nat nat :=
  mkConfig urlFor handler (Some (mkBuilders None None)).

(** Every connection attempt succeeds. *)
Definition reachable (_ : string) : Establish :=
  mkEstablish Resolved WebSocket.OPEN.

(** A transport connected to [wss://a] since time 150, subscribed to 7. *)
Definition connected : State nat :=
  mkState (Some (WebSocket.mk "wss://a" WebSocket.OPEN)) "wss://a" 0 150 [7%nat] 100.

(** The same transport after the provider dropped the connection. *)
Definition dropped : State nat :=
  mkState (Some (WebSocket.mk "wss://a" WebSocket.CLOSED)) "wss://a" 0 150 [7%nat] 100.

End Feed.

(* ------------------------------------------------------------------ *)
(** ** The decisions of a tick, by name                                *)
(* ------------------------------------------------------------------ *)

(** The conditions [streamHandler] computes on its way, as functions of
    what the tick starts from. *)
Module Decisions.
Import WebSocketTransport.

Section Decisions.
Context {P W R : Type}.

(** [!subscriptions.new.length && !this.wsConnection] *)
Definition skips (this : State P) (subs : SubscriptionDeltas P) : bool :=
  negb (nonEmpty (new subs)) && negb (isSome (wsConnection this)).

(** [this.currentUrl !== urlFromConfig] *)
Definition urlChanged (config : WebSocketTransportConfig P W R)
    (this : State P) (subs : SubscriptionDeltas P) : bool :=
  negb (String.eqb (currentUrl this) (url config (desired subs))).

(** [timeSinceLastActivity] *)
Definition timeSinceLastActivity (clock : Clock) (this : State P) : Z :=
  Z.min (Z.max 0 (now clock - lastMessageReceivedAt this))
        (Z.max 0 (now clock - connectionOpenedAt this)).

(** [connectionUnresponsive] *)
Definition connectionUnresponsive (ttl : Z) (clock : Clock) (this : State P) : bool :=
  (0 <? timeSinceLastActivity clock this) && (ttl <? timeSinceLastActivity clock this).

(** The condition of the block that closes the socket. *)
Definition closes (config : WebSocketTransportConfig P W R) (ttl : Z)
    (clock : Clock) (this : State P) (subs : SubscriptionDeltas P) : bool :=
  negb (connectionClosed this)
  && (urlChanged config this subs || connectionUnresponsive ttl clock this).

(** The condition of the block that opens a connection, for a tick that
    got that far. *)
Definition connects (config : WebSocketTransportConfig P W R) (ttl : Z)
    (clock : Clock) (this : State P) (subs : SubscriptionDeltas P) : bool :=
  negb (skips this subs)
  && (closes config ttl clock this subs || connectionClosed this)
  && nonEmpty (desired subs).

(** The deltas object when the tick is through with it. *)
Definition deltasAfter (config : WebSocketTransportConfig P W R) (ttl : Z)
    (clock : Clock) (this : State P) (subs : SubscriptionDeltas P)
    : SubscriptionDeltas P :=
  if closes config ttl clock this subs
  then mkDeltas (desired subs) (stale subs) (desired subs)
  else subs.

End Decisions.

Definition isClose (e : Event) : bool :=
  match e with WsClose => true | _ => false end.

Definition isNew (e : Event) : bool :=
  match e with WsNew _ => true | _ => false end.

End Decisions.

(** A provider that refuses every connection: the [error] and [close]
    listeners run, neither settles the promise, and the socket ends up
    closed. *)
Module Outage.
Import WebSocketTransport.

Definition unreachable (_ : string) : Establish :=
  mkEstablish Pending WebSocket.CLOSED.

End Outage.

(* ------------------------------------------------------------------ *)
(** ** src/adapter/endpoint.ts: the symbol overrider                   *)
(* ------------------------------------------------------------------ *)

Module RequestTransforms.
Import AdapterEndpoint.

(** A record from symbols to symbols, by its own keys. *)
Definition Overrides : Set := list (string * string).

(** The fields of the endpoint that [symbolOverrider] reads. *)
Record Endpoint : Set := mkEndpoint {
  name : string;
  overrides : option Overrides
}.

(** The parts of the request that [symbolOverrider] reads and writes:
    [req.body.data?.overrides], keyed by adapter name, and
    [req.requestContext.data['base']], which the source casts to a
    string. *)
Record Request : Set := mkRequest {
  bodyOverrides : option (list (string * Overrides));
  base : string
}.

(** [record?.[key]]: property reads are reads of own properties here;
    the properties below are stated for an endpoint name and a base that
    are not names every object inherits. *)
Definition read {V : Type} (record : option (list (string * V))) (key : string)
    : option V :=
  match record with
  | Some entries => ownProperty entries key
  | None => None
  end.

Definition symbolOverrider (this : Endpoint) (req : Request) : Request :=
  let requestOverrides := read (bodyOverrides req) (toLowerCase (name this)) in
  let base := base req in
  match read requestOverrides base with
  | Some (String _ _ as replacement) => mkRequest (bodyOverrides req) replacement
  | _ =>
      match read (overrides this) base with
      | Some (String _ _ as replacement) => mkRequest (bodyOverrides req) replacement
      | _ => req
      end
  end.

(** Not a name every object inherits. *)
Definition plain (key : string) : bool :=
  negb (existsb (String.eqb key) Object_prototype).

(** [symbolOverrider] with the library's lowercasing given;
    [symbolOverrider] above is its instance for endpoint names written
    in ASCII. *)
Definition symbolOverriderBy (lowercase : string -> string)
    (this : Endpoint) (req : Request) : Request :=
  let requestOverrides := read (bodyOverrides req) (lowercase (name this)) in
  let base := base req in
  match read requestOverrides base with
  | Some (String _ _ as replacement) => mkRequest (bodyOverrides req) replacement
  | _ =>
      match read (overrides this) base with
      | Some (String _ _ as replacement) => mkRequest (bodyOverrides req) replacement
      | _ => req
      end
  end.

End RequestTransforms.

(* ------------------------------------------------------------------ *)
(** ** src/metrics/index.ts                                            *)
(* ------------------------------------------------------------------ *)

Module Metrics.
Import AdapterEndpoint.

(** [HttpRequestType] is declared in [./constants], outside this
    sample: the three members used here, as the strings they stand for. *)
Record HttpRequestType : Set := mkHttpRequestType {
  CACHE_HIT : string;
  DATA_PROVIDER_HIT : string;
  ADAPTER_ERROR : string
}.

(** The [error] argument: [undefined], an [Error] that is no
    [AdapterError], or an [AdapterError] with the three fields read. *)
Inductive ErrorArgument : Set :=
| noError
| anError
| anAdapterError (metricsLabel : option string) (statusCode : Z)
                 (providerStatusCode : option Z).

(** The labels object; a label that was not assigned is [None]. *)
Record Labels : Set := mkLabels {
  method : option string;
  status_code : option Z;
  retry : option string;
  type : option string;
  is_cache_warming : option string;
  feed_id : option string;
  provider_status_code : option Z
}.

Definition buildHttpRequestMetricsLabel (types : HttpRequestType)
    (feedId : string) (error : ErrorArgument) (cacheHit : option bool) : Labels :=
  match error with
  | anAdapterError metricsLabel statusCode providerStatusCode =>
      mkLabels (Some "POST") (Some statusCode) None
               (if truthy metricsLabel then metricsLabel
                else Some (ADAPTER_ERROR types))
               None (Some feedId) providerStatusCode
  | anError =>
      mkLabels (Some "POST") (Some 500) None (Some (ADAPTER_ERROR types))
               None (Some feedId) None
  | noError =>
      match cacheHit with
      | Some true =>
          mkLabels (Some "POST") (Some 200) None (Some (CACHE_HIT types))
                   None (Some feedId) None
      | _ =>
          mkLabels (Some "POST") (Some 200) None (Some (DATA_PROVIDER_HIT types))
                   None (Some feedId) (Some 200)
      end
  end.

(** *** The [Metrics] class

    [metricsDefinition] registers the metrics and returns them by name;
    [definitionsRun] counts how often it was called. *)
Record t (M : Type) : Type := mk {
  metricsDefinition : list (string * M);
  metrics : option (list (string * M));
  definitionsRun : nat
}.
Arguments mk {M}.
Arguments metricsDefinition {M}.
Arguments metrics {M}.
Arguments definitionsRun {M}.

Definition create {M : Type} (metricsDefinition : list (string * M)) : t M :=
  mk metricsDefinition None 0%nat.

Definition initialize {M : Type} (this : t M) : t M :=
  match metrics this with
  | Some _ => this
  | None => mk (metricsDefinition this) (Some (metricsDefinition this))
               (S (definitionsRun this))
  end.

Definition notInitialized (name : string) : Exception :=
  Error ("Metric " ++ dquote ++ name ++ dquote ++ " was not initialized before use")%string.

Definition get {M : Type} (this : t M) (name : string) : Completion Exception M :=
  match RequestTransforms.read (metrics this) name with
  | Some metric => Return metric
  | None => Throw (notInitialized name)
  end.

(** *** The middleware

    What it reads of the request: [req.requestContext?.meta], with
    [metrics?.feedId], [metrics?.cacheHit] and [error]. *)
Record MetricsMeta : Set := mkMetricsMeta {
  feedId : option string;
  cacheHit : option bool
}.

Record Meta : Set := mkMeta {
  metricsMeta : option MetricsMeta;
  error : ErrorArgument
}.

(** [buildMetricsMiddleware(req, res, done)]: the labels under which the
    request is counted, or the error of a metric that is not there. *)
Definition buildMetricsMiddleware {M : Type} (types : HttpRequestType)
    (registry : t M) (meta : option Meta) : Completion Exception Labels :=
  let feedId :=
    match meta with
    | Some (mkMeta (Some (mkMetricsMeta (Some (String _ _ as feedId)) _)) _) => feedId
    | _ => "N/A"
    end in
  let labels :=
    buildHttpRequestMetricsLabel types feedId
      (match meta with Some m => error m | None => noError end)
      (match meta with
       | Some (mkMeta (Some m) _) => cacheHit m
       | _ => None
       end) in
  match get registry "httpRequestsTotal" with
  | Throw e => Throw e
  | Return _ =>
      match get registry "httpRequestDurationSeconds" with
      | Throw e => Throw e
      | Return _ => Return labels
      end
  end.

End Metrics.

(* ================================================================== *)
(** * Part II. Properties                                              *)
(* ================================================================== *)

(** ** Helper lemmas *)

Section WebSocketFacts.
Import WebSocketTransport.
Context {P W R : Type} `{Json P} `{Json W}.

Lemma connectionClosed_false_socket (this : State P) :
  connectionClosed this = false ->
  exists socket, wsConnection this = Some socket.
Proof.
  unfold connectionClosed. destruct (wsConnection this) as [socket|].
  - intros _. now exists socket.
  - discriminate.
Qed.

(** The test of [streamHandler] succeeds as soon as the time since the
    last activity exceeds both the threshold and zero. *)
Lemma unresponsive_test (now last opened ttl : Z) :
  Z.min (now - last) (now - opened) > Z.max 0 ttl ->
  let idle := Z.min (Z.max 0 (now - last)) (Z.max 0 (now - opened)) in
  (0 <? idle) && (ttl <? idle) = true.
Proof.
  intros Hidle idle. subst idle.
  apply andb_true_iff. split; apply Z.ltb_lt; lia.
Qed.

(** [streamHandler] once it is known that the socket is closed by it. *)
Lemma streamHandler_closing
    (config : WebSocketTransportConfig P W R) (ttl : Z)
    (establish : string -> Establish) (clock : Clock)
    (this : State P) (subs : SubscriptionDeltas P) :
  connectionClosed this = false ->
  negb (String.eqb (currentUrl this) (url config (desired subs)))
  || ((0 <? Z.min (Z.max 0 (now clock - lastMessageReceivedAt this))
                  (Z.max 0 (now clock - connectionOpenedAt this)))
      && (ttl <? Z.min (Z.max 0 (now clock - lastMessageReceivedAt this))
                       (Z.max 0 (now clock - connectionOpenedAt this)))) = true ->
  let resubscribe := mkDeltas (desired subs) (stale subs) (desired subs) in
  let target := url config (desired subs) in
  let tick := streamHandler config ttl establish clock this subs in
  subscriptions tick = resubscribe /\
  match desired subs with
  | [] => events tick = WsClose :: sendSubscriptions config resubscribe
          /\ settled tick = Resolved
  | _ :: _ =>
      match settles (establish target) with
      | Resolved =>
          events tick = WsClose :: WsNew target :: sendSubscriptions config resubscribe
          /\ settled tick = Resolved
          /\ wsConnection (state tick) = Some (WebSocket.mk target WebSocket.OPEN)
          /\ currentUrl (state tick) = target
      | other => events tick = [WsClose; WsNew target] /\ settled tick = other
      end
  end.
Proof.
  intros Hopen Hclose resubscribe target tick.
  subst tick resubscribe target.
  destruct this as [ws current last opened mine established].
  destruct subs as [fresh old wanted].
  unfold connectionClosed in Hopen.
  cbn [wsConnection currentUrl lastMessageReceivedAt connectionOpenedAt desired] in *.
  destruct ws as [socket|]; [|discriminate].
  unfold streamHandler, connectionClosed.
  cbn [wsConnection currentUrl lastMessageReceivedAt connectionOpenedAt
       desiredSubscriptions providerDataStreamEstablished stale desired new
       isSome negb option_map].
  rewrite andb_false_r, Hopen. cbn [negb andb]. rewrite Hclose.
  cbn [wsConnection currentUrl lastMessageReceivedAt connectionOpenedAt
       desiredSubscriptions providerDataStreamEstablished stale desired new].
  destruct wanted as [|p ps]; cbn [nonEmpty andb].
  - cbn [subscriptions events settled app]. auto.
  - destruct (settles (establish (url config (p :: ps))));
      cbn [subscriptions events settled state wsConnection currentUrl app]; auto.
Qed.



Lemma sendSubscriptions_only_sends (config : WebSocketTransportConfig P W R)
    (subs : SubscriptionDeltas P) (e : Event) :
  In e (sendSubscriptions config subs) -> Trace.isSend e = true.
Proof.
  unfold sendSubscriptions, sendMessages.
  destruct (builders config) as [b|]; [|intros []].
  intros Hin. apply in_map_iff in Hin. destruct Hin as [m [<- _]]. reflexivity.
Qed.

(** Every stamped result carries the transport's field. *)
Lemma stamped_with_field
    (config : WebSocketTransportConfig P W R) (this : State P) (data : string)
    (t1 t2 : Z) (results : list (TimestampedProviderResult P R))
    (r : TimestampedProviderResult P R) :
  written (onMessage config this data t1 t2) = Some results ->
  In r results ->
  Timestamps.providerDataStreamEstablished (timestamps r)
  = providerDataStreamEstablished this.
Proof.
  unfold onMessage.
  destruct (deserializeMessage data) as [parsed|]; [|discriminate].
  destruct (message config parsed (desiredSubscriptions this)) as [rs|];
    cbn [option_map written]; [|discriminate].
  intros [= <-] Hin. apply in_map_iff in Hin.
  destruct Hin as [r0 [<- _]]. reflexivity.
Qed.

End WebSocketFacts.

(** ** The WebSocket transport *)

Section WebSocketClaims.
Import WebSocketTransport.
Context {P W R : Type} `{Json P} `{Json W}.
Variable config : WebSocketTransportConfig P W R.
Variable WS_SUBSCRIPTION_UNRESPONSIVE_TTL : Z.
Variable establish : string -> Establish.

(** C1, as the code has it.  In a tick that finds the connection not
    closed and, at its [Date.now()],
    [min(now - lastMessageReceivedAt, now - connectionOpenedAt)] above
    both [WS_SUBSCRIPTION_UNRESPONSIVE_TTL] and zero, the first thing
    [streamHandler] does to the outside world is to close the socket;
    every subscribe or unsubscribe message of the tick comes after that. *)
Theorem unresponsive_socket_closed_before_any_message
    (clock : Clock) (this : State P) (subs : SubscriptionDeltas P) :
  connectionClosed this = false ->
  Z.min (now clock - lastMessageReceivedAt this)
        (now clock - connectionOpenedAt this)
    > Z.max 0 WS_SUBSCRIPTION_UNRESPONSIVE_TTL ->
  let tick :=
    streamHandler config WS_SUBSCRIPTION_UNRESPONSIVE_TTL establish clock this subs in
  (exists rest, events tick = WsClose :: rest)
  /\ Trace.closesBeforeSending (events tick) = true.
Proof.
  intros Hopen Hidle tick.
  assert (Hfirst : exists rest, events tick = WsClose :: rest).
  { pose proof (unresponsive_test _ _ _ _ Hidle) as Htest. cbv zeta in Htest.
    destruct (streamHandler_closing config WS_SUBSCRIPTION_UNRESPONSIVE_TTL
                establish clock this subs Hopen) as [_ Hevents].
    - rewrite Htest. apply orb_true_r.
    - fold tick in Hevents. destruct (desired subs).
      + destruct Hevents as [-> _]. eauto.
      + destruct (settles (establish _)); destruct Hevents as [-> _]; eauto. }
  split; [exact Hfirst|].
  destruct Hfirst as [rest ->]. reflexivity.
Qed.


(** C3, as the code has it.  For an inbound message that deserializes,
    [lastMessageReceivedAt] is set to the current time exactly when the
    user's handler returns an array, empty or not, and that array,
    stamped, is what is written to the cache; when the handler returns
    [undefined] no field of the transport changes and nothing is written. *)
Theorem lastMessageReceivedAt_follows_handler_array
    (this : State P) (data : string) (parsed : W)
    (providerDataReceived receivedAt : Z) :
  deserializeMessage data = Some parsed ->
  let inbound := onMessage config this data providerDataReceived receivedAt in
  match message config parsed (desiredSubscriptions this) with
  | Some results =>
      lastMessageReceivedAt (after inbound) = receivedAt
      /\ written inbound = Some (map (stamp this providerDataReceived) results)
  | None => after inbound = this /\ written inbound = None
  end.
Proof.
  intros Hparsed inbound. subst inbound. unfold onMessage. rewrite Hparsed.
  destruct (message config parsed (desiredSubscriptions this)) as [results|];
    cbn [option_map after written lastMessageReceivedAt]; auto.
Qed.

(** C9, as the code has it.  In a tick with an empty new-subscriptions
    delta and no socket object at all ([wsConnection] unset),
    [streamHandler] returns at once: it opens nothing, sends nothing, and
    leaves the deltas as they were. *)
Theorem no_new_subscriptions_and_no_socket_skips
    (clock : Clock) (this : State P) (subs : SubscriptionDeltas P) :
  new subs = [] ->
  wsConnection this = None ->
  let tick :=
    streamHandler config WS_SUBSCRIPTION_UNRESPONSIVE_TTL establish clock this subs in
  events tick = []
  /\ settled tick = Resolved
  /\ subscriptions tick = subs
  /\ wsConnection (state tick) = None
  /\ desiredSubscriptions (state tick) = desired subs.
Proof.
  intros Hnew Hsocket tick. subst tick. unfold streamHandler.
  cbn [wsConnection]. rewrite Hnew, Hsocket. cbn. auto.
Qed.

End WebSocketClaims.

(** *** The feed, run *)

Section FeedRuns.
Import WebSocketTransport.

(** C1 as stated fails: with a negative threshold and a tick in the
    very millisecond the connection opened, the time since the last
    activity, zero, exceeds the threshold, yet the socket is kept and the
    unsubscribe message is sent on it. *)
Lemma negative_threshold_keeps_socket_open :
  connectionClosed Feed.connected = false
  /\ Z.min (150 - lastMessageReceivedAt Feed.connected)
           (150 - connectionOpenedAt Feed.connected) > -5
  /\ events (streamHandler Feed.byMessage (-5) Feed.reachable
               (mkClock 150 151 152) Feed.connected
               (mkDeltas [] [9%nat] [7%nat]))
     = [WsSend "9"].
Proof. split; [reflexivity|]. split; reflexivity. Qed.

(** C1 at work: connected since 150, silent, looked at 5000 with a
    threshold of 1000. *)
Lemma unresponsive_socket_closed_before_any_message_witness :
  connectionClosed Feed.connected = false
  /\ Z.min (5000 - lastMessageReceivedAt Feed.connected)
           (5000 - connectionOpenedAt Feed.connected) > Z.max 0 1000
  /\ (exists rest,
        events (streamHandler Feed.byMessage 1000 Feed.reachable
                  (mkClock 5000 5001 5050) Feed.connected
                  (mkDeltas [8%nat] [] [8%nat]))
        = WsClose :: rest)
  /\ Trace.closesBeforeSending
       (events (streamHandler Feed.byMessage 1000 Feed.reachable
                  (mkClock 5000 5001 5050) Feed.connected
                  (mkDeltas [8%nat] [] [8%nat]))) = true.
Proof.
  split; [reflexivity|]. split; [reflexivity|].
  apply (unresponsive_socket_closed_before_any_message
           Feed.byMessage 1000 Feed.reachable (mkClock 5000 5001 5050)
           Feed.connected (mkDeltas [8%nat] [] [8%nat]));
    [reflexivity | reflexivity].
Defined.



(** C3 as stated fails: an acknowledgement for which the handler returns
    the empty array moves [lastMessageReceivedAt] from 0 to 301. *)
Lemma empty_results_update_lastMessageReceivedAt :
  message Feed.byMessage 1%nat (desiredSubscriptions Feed.connected) = Some []
  /\ lastMessageReceivedAt Feed.connected = 0
  /\ lastMessageReceivedAt
       (after (onMessage Feed.byMessage Feed.connected "1" 300 301)) = 301.
Proof. repeat split. Qed.

(** C3 at work on a heartbeat: nothing changes. *)
Lemma lastMessageReceivedAt_follows_handler_array_witness :
  deserializeMessage "0" = Some 0%nat
  /\ after (onMessage Feed.byMessage Feed.connected "0" 300 301) = Feed.connected
  /\ written (onMessage Feed.byMessage Feed.connected "0" 300 301) = None.
Proof.
  split; [reflexivity|].
  apply (lastMessageReceivedAt_follows_handler_array
           Feed.byMessage Feed.connected "0" 0%nat 300 301).
  reflexivity.
Defined.

(** C4 as stated fails: the connection takes 50 ms to open; the price
    written afterwards is stamped 100, [connectionOpenedAt] is 150. *)
Lemma written_result_differs_from_connectionOpenedAt :
  exists r,
    written (onMessage Feed.byMessage
               (state (streamHandler Feed.byMessage 1000 Feed.reachable
                         (mkClock 99 100 150) initial
                         (mkDeltas [7%nat] [] [7%nat])))
               "5" 300 301) = Some [r]
    /\ Timestamps.providerDataStreamEstablished (timestamps r) = 100
    /\ connectionOpenedAt
         (after (onMessage Feed.byMessage
                   (state (streamHandler Feed.byMessage 1000 Feed.reachable
                             (mkClock 99 100 150) initial
                             (mkDeltas [7%nat] [] [7%nat])))
                   "5" 300 301)) = 150.
Proof. eexists. repeat split. Qed.

(** C9 as stated fails: the provider dropped the connection, the socket
    object is there and closed; there is nothing new to subscribe to,
    yet the tick opens a connection and sends an unsubscribe message. *)
Lemma closed_socket_without_new_subscriptions_reconnects :
  connectionClosed Feed.dropped = true
  /\ events (streamHandler Feed.byMessage 1000 Feed.reachable
               (mkClock 200 201 250) Feed.dropped
               (mkDeltas [] [9%nat] [7%nat]))
     = [WsNew "wss://a"; WsSend "9"].
Proof. split; reflexivity. Qed.

(** C9 at work on a transport that never connected. *)
Lemma no_new_subscriptions_and_no_socket_skips_witness :
  new (mkDeltas ([] : list nat) [9%nat] [7%nat]) = []
  /\ wsConnection (initial (P:=nat)) = None
  /\ events (streamHandler Feed.byMessage 1000 Feed.reachable
               (mkClock 200 201 250) initial (mkDeltas [] [9%nat] [7%nat]))
     = []
  /\ settled (streamHandler Feed.byMessage 1000 Feed.reachable
                (mkClock 200 201 250) initial (mkDeltas [] [9%nat] [7%nat]))
     = Resolved.
Proof.
  split; [reflexivity|]. split; [reflexivity|].
  destruct (no_new_subscriptions_and_no_socket_skips
              Feed.byMessage 1000 Feed.reachable (mkClock 200 201 250)
              initial (mkDeltas [] [9%nat] [7%nat]) eq_refl eq_refl)
    as (Hevents & Hsettled & _).
  split; assumption.
Defined.

End FeedRuns.

(** ** The Redis subscription set *)

(** Decimal numerals survive the trip through JSON. *)
#[export] Instance JsonRoundTrip_nat : JsonRoundTrip nat.
Proof.
  intros n. cbn.
  assert (Hnil : Nat.to_uint n <> Nil).
  { intros Hn. pose proof (Unsigned.of_to n) as Hback. rewrite Hn in Hback.
    cbn in Hback. subst n. discriminate. }
  rewrite (NilZero.usu _ Hnil). cbn. now rewrite Unsigned.of_to.
Qed.

Section SortedSetFacts.
Import Redis.

Lemma in_insert (e x : string * Z) (s : SortedSet) :
  In x (insert e s) <-> x = e \/ In x s.
Proof.
  induction s as [|y s IH]; cbn.
  - intuition.
  - destruct (entry_leb e y); cbn; rewrite ?IH; intuition.
Qed.

Lemma in_zadd (s : SortedSet) (score : Z) (member : string) (x : string * Z) :
  In x (zadd s score member) <->
  x = (member, score) \/ (In x s /\ fst x <> member).
Proof.
  unfold zadd, zrem. rewrite in_insert, filter_In.
  rewrite negb_true_iff, String.eqb_neq. reflexivity.
Qed.

Lemma in_zremrangebyscore (s : SortedSet) (max : Z) (x : string * Z) :
  In x (zremrangebyscore_from_neg_inf s max) <-> In x s /\ max < snd x.
Proof.
  unfold zremrangebyscore_from_neg_inf. rewrite filter_In.
  rewrite negb_true_iff, Z.leb_gt. reflexivity.
Qed.

End SortedSetFacts.

Section SplitFacts.
Import RedisSubscriptionSet.

Lemma split_free (d : ascii) (s : string) :
  free_of d s = true -> split d s = [s].
Proof.
  induction s as [|c s IH]; cbn; [reflexivity|].
  intros Hfree. apply andb_true_iff in Hfree. destruct Hfree as [Hc Hs].
  apply negb_true_iff in Hc. rewrite Hc, (IH Hs). reflexivity.
Qed.

Lemma split_joined (d : ascii) (key text : string) :
  free_of d key = true ->
  free_of d text = true ->
  split d (key ++ String d text)%string = [key; text].
Proof.
  intros Hkey Htext. induction key as [|c key IH]; cbn.
  - rewrite Ascii.eqb_refl, (split_free _ _ Htext). reflexivity.
  - cbn in Hkey. apply andb_true_iff in Hkey. destruct Hkey as [Hc Hkey].
    apply negb_true_iff in Hc. rewrite Hc, (IH Hkey). reflexivity.
Qed.

End SplitFacts.

Lemma mapM_total {A B : Type} (f : A -> option B) (xs : list A) :
  (forall x, In x xs -> f x <> None) ->
  exists ys, mapM f xs = Some ys
             /\ forall x y, In x xs -> f x = Some y -> In y ys.
Proof.
  induction xs as [|x xs IH]; intros Hall.
  - exists []. split; [reflexivity|]. intros ? ? [].
  - destruct IH as [ys [Hys Hin]].
    { intros x' Hx'. apply Hall. now right. }
    cbn. destruct (f x) as [y|] eqn:Hfx.
    + exists (y :: ys). rewrite Hys. split; [reflexivity|].
      intros x' y' [<-|Hx'] Hy'.
      * left. congruence.
      * right. eauto.
    + exfalso. apply (Hall x); [now left|exact Hfx].
Qed.

Section RedisSubscriptionSetClaims.
Import RedisSubscriptionSet.
Context {T : Type} `{JsonRoundTrip T}.

(** The decoding of [getAll] inverts the encoding of [add] when neither
    part holds the delimiter. *)
Lemma parseEntry_storedValue (key : string) (value : T) :
  free_of DELIMITER key = true ->
  free_of DELIMITER (JSON_stringify value) = true ->
  parseEntry (storedValue key value) = Some value.
Proof.
  intros Hkey Hvalue. unfold parseEntry, storedValue.
  rewrite (split_joined _ _ _ Hkey Hvalue). cbn. apply parse_stringify.
Qed.

(** Sets filled by [add] with such keys and values hold only members
    that parse. *)
Lemma add_keeps_members_parsing
    (store : Redis.SortedSet) (key : string) (value : T) (ttl now : Z) :
  free_of DELIMITER key = true ->
  free_of DELIMITER (JSON_stringify value) = true ->
  (forall member score, In (member, score) store ->
                        parseEntry (T:=T) member <> None) ->
  forall member score, In (member, score) (add store key value ttl now) ->
                       parseEntry (T:=T) member <> None.
Proof.
  intros Hkey Hvalue Hstore member score Hin.
  apply in_zadd in Hin. destruct Hin as [[= -> _]|[Hin _]].
  - rewrite (parseEntry_storedValue _ _ Hkey Hvalue). discriminate.
  - eauto.
Qed.

(** C5, as the code has it.  [add(key, value, ttl)] stores the member
    [key ++ ">" ++ JSON(value)] with score [now + ttl].  For a key that
    holds no [>] and a value whose JSON text holds no [>] and parses back
    to the value, the decoding of [getAll] inverts the encoding of [add],
    and a [getAll] before the expiry, on a set whose live members all
    parse, returns an array that holds the value. *)
Theorem add_then_getAll_gives_value_back
    (store : Redis.SortedSet) (key : string) (value : T) (ttl now later : Z) :
  free_of DELIMITER key = true ->
  free_of DELIMITER (JSON_stringify value) = true ->
  (forall member score, In (member, score) store -> later < score ->
                        parseEntry (T:=T) member <> None) ->
  later < now + ttl ->
  storedValue key value
    = (key ++ String ">"%char (JSON_stringify value))%string
  /\ In (storedValue key value, now + ttl) (add store key value ttl now)
  /\ parseEntry (storedValue key value) = Some value
  /\ exists values,
       snd (getAll (add store key value ttl now) later) = Return values
       /\ In value values.
Proof.
  intros Hkey Hvalue Hstore Hlater.
  pose proof (parseEntry_storedValue _ _ Hkey Hvalue) as Hdecode.
  split; [reflexivity|].
  split; [apply in_zadd; now left|].
  split; [exact Hdecode|].
  unfold getAll. cbn [snd].
  destruct (mapM_total (parseEntry (T:=T))
              (Redis.zrange_all
                 (Redis.zremrangebyscore_from_neg_inf
                    (add store key value ttl now) later)))
    as [values [Hvalues Hin]].
  - intros member Hmember. unfold Redis.zrange_all in Hmember.
    apply in_map_iff in Hmember. destruct Hmember as [[member' score] [Hfst Hentry]].
    cbn in Hfst. subst member'.
    apply in_zremrangebyscore in Hentry. destruct Hentry as [Hentry Hlive].
    apply in_zadd in Hentry. destruct Hentry as [[= -> _]|[Hentry _]].
    + rewrite Hdecode. discriminate.
    + exact (Hstore member score Hentry Hlive).
  - exists values. rewrite Hvalues. split; [reflexivity|].
    apply (Hin (storedValue key value) value); [|exact Hdecode].
    unfold Redis.zrange_all. apply in_map_iff.
    exists (storedValue key value, now + ttl). split; [reflexivity|].
    apply in_zremrangebyscore. split; [apply in_zadd; now left|exact Hlater].
Qed.

End RedisSubscriptionSetClaims.

Section RedisExpiryClaims.
Import RedisSubscriptionSet.
Context {T : Type} `{Json T}.

(** C6, as the code has it.  [getAll] first removes exactly the members
    whose score is at most the current time, then returns every
    remaining member decoded, in the order of the set; an entry whose
    score equals the current time is removed and not returned. *)
Theorem getAll_removes_scores_up_to_now (store : Redis.SortedSet) (now : Z) :
  (forall member score,
      In (member, score) (fst (getAll (T:=T) store now))
      <-> In (member, score) store /\ now < score)
  /\ (forall member, ~ In (member, now) (fst (getAll (T:=T) store now)))
  /\ snd (getAll (T:=T) store now)
     = match mapM parseEntry (map fst (fst (getAll (T:=T) store now))) with
       | Some values => Return values
       | None => Throw SyntaxError
       end.
Proof.
  unfold getAll. cbn [fst snd]. split; [|split].
  - intros member score. apply in_zremrangebyscore.
  - intros member Hin. apply in_zremrangebyscore in Hin. cbn in Hin. lia.
  - reflexivity.
Qed.

End RedisExpiryClaims.

Section RedisRuns.
Import RedisSubscriptionSet.

(** C5 as stated fails: the value 1 has JSON text [1], free of the
    delimiter, but the key holds one; [getAll] answers 7. *)
Lemma key_with_delimiter_corrupts_getAll :
  free_of DELIMITER (JSON_stringify 1%nat) = true
  /\ add [] "k>7" 1%nat 10 100 = [("k>7>1", 110)]
  /\ getAll (T:=nat) (add [] "k>7" 1%nat 10 100) 105
     = ([("k>7>1", 110)], Return [7%nat]).
Proof. repeat split. Qed.

(** C5 at work: two subscriptions, read before either expires. *)
Lemma add_then_getAll_gives_value_back_witness :
  free_of DELIMITER "eth" = true
  /\ free_of DELIMITER (JSON_stringify 2%nat) = true
  /\ 104 < 100 + 5
  /\ In ("eth>2", 105) (add (add [] "btc" 1%nat 10 100) "eth" 2%nat 5 100)
  /\ exists values,
       snd (getAll (add (add [] "btc" 1%nat 10 100) "eth" 2%nat 5 100) 104)
       = Return values
       /\ In 2%nat values.
Proof.
  split; [reflexivity|]. split; [reflexivity|]. split; [lia|].
  destruct (add_then_getAll_gives_value_back
              (add [] "btc" 1%nat 10 100) "eth" 2%nat 5 100 104)
    as (_ & Hstored & _ & Hback).
  - reflexivity.
  - reflexivity.
  - intros member score [[= <- <-]|[]] _. cbn. discriminate.
  - lia.
  - split; [exact Hstored|exact Hback].
Defined.

(** C6 as stated fails: an entry whose score equals the current time is
    removed and not returned. *)
Lemma entry_expiring_now_is_removed :
  add [] "k" 1%nat 10 100 = [("k>1", 110)]
  /\ getAll (T:=nat) (add [] "k" 1%nat 10 100) 110 = ([], Return [])
  /\ getAll (T:=nat) (add [] "k" 1%nat 10 100) 109
     = ([("k>1", 110)], Return [1%nat]).
Proof. repeat split. Qed.

End RedisRuns.

(** ** The endpoint *)

Section EndpointClaims.
Import AdapterEndpoint.
Context {T D : Type}.

Lemma truthy_some (s : option string) :
  truthy s = true -> exists name, s = Some name.
Proof. destruct s as [name|]; [eauto|discriminate]. Qed.

(** The method of the source is the routing below for names in ASCII. *)
Lemma getTransportNameForRequest_ascii (this : t T D) (req : AdapterRequest D) :
  getTransportNameForRequest this req
  = getTransportNameForRequestBy toLowerCase this req.
Proof. reflexivity. Qed.

(** C7, as the code has it.  Whatever names [toLowerCase] maps to
    what: [getTransportNameForRequest] returns the reserved name when
    the transports object holds it (an endpoint built from a single
    [transport]); otherwise it takes the first that resolves among the
    custom router's result, the request's [data.transport] and
    [defaultTransport], lowercases it, and returns it when the transports
    object has it; when none resolves it throws an [AdapterError] with
    status 400, and so it does for a lowercased name that is neither a
    key of the transports object nor a property every object inherits.
    A transports object with one key of another name is routed like any
    other. *)
Theorem transport_name_follows_precedence
    (lowercase : string -> string) (this : t T D) (req : AdapterRequest D) :
  getTransportNameForRequestBy lowercase this req = routeBySpecBy lowercase this req
  /\ (ownProperty (transports this) DEFAULT_TRANSPORT_NAME = None ->
      firstResolved [ match customRouter this with
                      | Some router => router req
                      | None => None
                      end;
                      transport req; defaultTransport this ] = None ->
      getTransportNameForRequestBy lowercase this req = Throw (AdapterError 400))
  /\ (forall name,
      ownProperty (transports this) DEFAULT_TRANSPORT_NAME = None ->
      firstResolved [ match customRouter this with
                      | Some router => router req
                      | None => None
                      end;
                      transport req; defaultTransport this ] = Some name ->
      ownProperty (transports this) (lowercase name) = None ->
      ~ In (lowercase name) Object_prototype ->
      getTransportNameForRequestBy lowercase this req = Throw (AdapterError 400))
  /\ (forall name registered,
      ownProperty (transports this) DEFAULT_TRANSPORT_NAME = None ->
      firstResolved [ match customRouter this with
                      | Some router => router req
                      | None => None
                      end;
                      transport req; defaultTransport this ] = Some name ->
      ownProperty (transports this) (lowercase name) = Some registered ->
      getTransportNameForRequestBy lowercase this req = Return (lowercase name)).
Proof.
  assert (Hsame : getTransportNameForRequestBy lowercase this req
                  = routeBySpecBy lowercase this req).
  { unfold getTransportNameForRequestBy, routeBySpecBy, truthyProperty at 1.
    replace (existsb (String.eqb DEFAULT_TRANSPORT_NAME) Object_prototype)
      with false by reflexivity.
    rewrite orb_false_r.
    destruct (ownProperty (transports this) DEFAULT_TRANSPORT_NAME); [reflexivity|].
    cbn [isSome]. unfold firstResolved, defaultRouter, or_else.
    remember (match customRouter this with
              | Some router => router req
              | None => None
              end) as routed eqn:Hrouted.
    clear Hrouted.
    destruct routed as [[|c1 n1]|]; cbn [truthy find negb];
      try (now destruct (truthyProperty _ _));
      destruct (transport req) as [[|c2 n2]|]; cbn [truthy find negb];
      try (now destruct (truthyProperty _ _));
      destruct (defaultTransport this) as [[|c3 n3]|]; cbn [truthy find negb];
      try reflexivity; now destruct (truthyProperty _ _). }
  split; [exact Hsame|]. rewrite Hsame. unfold routeBySpecBy. split; [|split].
  - intros -> ->. reflexivity.
  - intros name -> -> Hown Hinherited. unfold truthyProperty. rewrite Hown.
    cbn [isSome orb].
    destruct (existsb (String.eqb (lowercase name)) Object_prototype) eqn:Hex;
      [|reflexivity].
    exfalso. apply Hinherited. apply existsb_exists in Hex.
    destruct Hex as [k [Hk Heq]]. apply String.eqb_eq in Heq. now subst k.
  - intros name registered -> -> Hown. unfold truthyProperty. rewrite Hown.
    reflexivity.
Qed.

(** The constructor throws for an explicit transports object exactly when
    one of its keys is not made of lowercase letters. *)
Lemma constructor_validates_keys
    (entries : list (string * T))
    (router : option (AdapterRequest D -> option string)) (default : option string) :
  (exists name, In name (map fst entries) /\ validTransportName name = false)
  <-> (exists message,
        constructor (withTransports entries router default) = Throw (Error message)).
Proof.
  unfold constructor.
  destruct (find (fun name => negb (validTransportName name)) (map fst entries))
    as [bad|] eqn:Hfind; split.
  - intros _. eexists. reflexivity.
  - intros _. apply find_some in Hfind. destruct Hfind as [Hin Hbad].
    exists bad. split; [exact Hin|]. now apply negb_true_iff.
  - intros [name [Hin Hbad]]. exfalso.
    pose proof (find_none _ _ Hfind name Hin) as Hok. cbn in Hok.
    rewrite Hbad in Hok. discriminate.
  - intros [message Hthrow]. discriminate.
Qed.

(** C10.  An endpoint built from a single [transport] has a transports
    object with exactly one key, the reserved name; the constructor
    cannot throw in this branch, although the reserved name does not pass
    the test applied to the keys of an explicit transports object, which
    makes the constructor throw for every such object that holds it. *)
Theorem single_transport_skips_name_validation (transport : T) :
  (exists endpoint : t T D,
      constructor (withTransport transport) = Return endpoint
      /\ map fst (transports endpoint) = [DEFAULT_TRANSPORT_NAME]
      /\ ownProperty (transports endpoint) DEFAULT_TRANSPORT_NAME = Some transport)
  /\ validTransportName DEFAULT_TRANSPORT_NAME = false
  /\ (forall entries router default,
      In DEFAULT_TRANSPORT_NAME (map fst entries) ->
      exists message,
        constructor (D:=D) (T:=T) (withTransports entries router default)
        = Throw (Error message)).
Proof.
  split; [|split].
  - eexists. split; [reflexivity|]. split; reflexivity.
  - reflexivity.
  - intros entries router default Hin. apply constructor_validates_keys.
    exists DEFAULT_TRANSPORT_NAME. split; [exact Hin|reflexivity].
Qed.

End EndpointClaims.

Section EndpointRuns.
Import AdapterEndpoint.

(** C7 as stated fails: one transport is registered, under the name
    [ws]; a request that names no transport is answered 400. *)
Lemma single_named_transport_is_not_used :
  constructor (T:=nat) (D:=unit) (withTransports [("ws", 1%nat)] None None)
  = Return (mk [("ws", 1%nat)] None None)
  /\ List.length (transports (mk (T:=nat) (D:=unit) [("ws", 1%nat)] None None)) = 1%nat
  /\ getTransportNameForRequest (mk (T:=nat) [("ws", 1%nat)] None None)
                                (mkRequest tt None)
     = Throw (AdapterError 400).
Proof. repeat split. Qed.

(** A name every object inherits is found in the transports object
    although it is no key of it, and is returned. *)
Remark inherited_property_name_is_returned :
  getTransportNameForRequest (mk (T:=nat) [("ws", 1%nat)] None None)
                             (mkRequest tt (Some "constructor"))
  = Return "constructor".
Proof. reflexivity. Qed.

(** C7 at work: the router declines, the request asks for [WS]. *)
Lemma transport_name_follows_precedence_witness :
  getTransportNameForRequestBy toLowerCase
    (mk [("ws", 1%nat); ("rest", 2%nat)] (Some (fun _ : AdapterRequest unit => None))
        (Some "rest"))
    (mkRequest tt (Some "WS"))
  = Return "ws".
Proof.
  rewrite (proj1 (transport_name_follows_precedence toLowerCase
                    (mk [("ws", 1%nat); ("rest", 2%nat)]
                        (Some (fun _ : AdapterRequest unit => None)) (Some "rest"))
                    (mkRequest tt (Some "WS")))).
  reflexivity.
Defined.

End EndpointRuns.

(** ** The cache factory *)

Section CacheFactoryClaims.
Import CacheFactory.
Context {Redis : Type}.

(** C8, as the code has it.  [buildCache] yields a [LocalCache] for
    [local] and a [RedisCache] for [redis] with a client; for [redis]
    without a client it throws; for every other string it throws nothing
    and returns [undefined], no cache instance. *)
Theorem buildCache_by_type (cacheType : string) (redisClient : option Redis) :
  (cacheType = "local" ->
   buildCache cacheType redisClient = Return (Some LocalCache))
  /\ (cacheType = "redis" ->
      match redisClient with
      | Some client =>
          buildCache cacheType redisClient = Return (Some (RedisCache client))
      | None =>
          buildCache cacheType redisClient
          = Throw (Error "Redis client undefined. Cannot create Redis cache")
      end)
  /\ (cacheType <> "local" -> cacheType <> "redis" ->
      buildCache cacheType redisClient = Return None).
Proof.
  unfold buildCache. split; [|split].
  - intros ->. reflexivity.
  - intros ->. cbn. now destruct redisClient.
  - intros Hlocal Hredis.
    apply String.eqb_neq in Hlocal. apply String.eqb_neq in Hredis.
    now rewrite Hlocal, Hredis.
Qed.

End CacheFactoryClaims.

Section CacheFactoryRuns.
Import CacheFactory.

(** C8 as stated fails: an unknown cache type raises nothing. *)
Lemma unknown_cache_type_returns_undefined :
  buildCache (Redis:=unit) "memcached" None = Return None
  /\ buildCache (Redis:=unit) "memcached" (Some tt) = Return None
  /\ buildCache (Redis:=unit) "Local" None = Return None.
Proof. repeat split. Qed.

(** C8 at work. *)
Lemma buildCache_by_type_witness :
  "memcached" <> "local"
  /\ "memcached" <> "redis"
  /\ buildCache "memcached" (Some tt) = Return None.
Proof.
  split; [discriminate|]. split; [discriminate|].
  apply (proj2 (proj2 (buildCache_by_type "memcached" (Some tt)))); discriminate.
Defined.

End CacheFactoryRuns.

Section MoreRuns.
Import RedisSubscriptionSet AdapterEndpoint.

(** C6 at work on a set of two, read when the first expires. *)
Lemma getAll_removes_scores_up_to_now_witness :
  ~ In ("eth>2", 105)
       (fst (getAll (T:=nat)
               (add (add [] "btc" 1%nat 10 100) "eth" 2%nat 5 100) 105))
  /\ In ("btc>1", 110)
        (fst (getAll (T:=nat)
                (add (add [] "btc" 1%nat 10 100) "eth" 2%nat 5 100) 105)).
Proof.
  destruct (getAll_removes_scores_up_to_now (T:=nat)
              (add (add [] "btc" 1%nat 10 100) "eth" 2%nat 5 100) 105)
    as (Hlive & Hnow & _).
  split; [apply Hnow|].
  apply Hlive. split; [right; left; reflexivity | lia].
Defined.

(** C10 at work: the reserved name is rejected in an explicit object. *)
Lemma single_transport_skips_name_validation_witness :
  In DEFAULT_TRANSPORT_NAME (map fst [("ws", 1%nat); (DEFAULT_TRANSPORT_NAME, 2%nat)])
  /\ exists message,
       constructor (D:=unit)
         (withTransports [("ws", 1%nat); (DEFAULT_TRANSPORT_NAME, 2%nat)] None None)
       = Throw (Error message).
Proof.
  split; [right; left; reflexivity|].
  apply (proj2 (proj2 (single_transport_skips_name_validation (D:=unit) 2%nat))).
  right; left; reflexivity.
Defined.

End MoreRuns.

(* ================================================================== *)
(** * Part III. Further properties of the same code                    *)
(* ================================================================== *)

(** ** More on a tick of the WebSocket transport *)

Section TickFacts.
Import WebSocketTransport Decisions.
Context {P W R : Type} `{Json P} `{Json W}.
Variable config : WebSocketTransportConfig P W R.
Variable ttl : Z.
Variable establish : string -> Establish.

(** Every field of the result of [streamHandler], by the decisions taken. *)
Lemma streamHandler_reading
    (clock : Clock) (this : State P) (subs : SubscriptionDeltas P) :
  let tick := streamHandler config ttl establish clock this subs in
  let target := url config (desired subs) in
  let closing := closes config ttl clock this subs in
  let connecting := connects config ttl clock this subs in
  let attempt := establish target in
  let resolved := match settles attempt with Resolved => true | _ => false end in
  let subs' := deltasAfter config ttl clock this subs in
  events tick
  = (if closing then [WsClose] else [])
    ++ (if connecting then [WsNew target] else [])
    ++ (if skips this subs || (connecting && negb resolved) then []
        else sendSubscriptions config subs')
  /\ subscriptions tick = subs'
  /\ settled tick = (if connecting then settles attempt else Resolved)
  /\ wsConnection (state tick)
     = (if connecting
        then Some (WebSocket.mk target
                     (if resolved then WebSocket.OPEN else leaves attempt))
        else if closing then option_map WebSocket.close (wsConnection this)
        else wsConnection this)
  /\ currentUrl (state tick) = (if connecting then target else currentUrl this)
  /\ lastMessageReceivedAt (state tick) = lastMessageReceivedAt this
  /\ connectionOpenedAt (state tick)
     = (if connecting && resolved then openedAt clock else connectionOpenedAt this)
  /\ desiredSubscriptions (state tick) = desired subs
  /\ providerDataStreamEstablished (state tick)
     = (if connecting then establishedAt clock
        else providerDataStreamEstablished this).
Proof.
  destruct this as [ws current last opened mine established].
  destruct subs as [fresh old wanted].
  unfold streamHandler, connects, deltasAfter, closes, skips, urlChanged,
    connectionUnresponsive, timeSinceLastActivity, connectionClosed.
  cbn [wsConnection currentUrl lastMessageReceivedAt connectionOpenedAt
       desiredSubscriptions providerDataStreamEstablished stale desired new].
  set (u := url config wanted).
  set (test := negb (String.eqb current u) || _).
  destruct ws as [[wsurl rs]|].
  - destruct (WebSocket.ReadyState_eqb rs WebSocket.CLOSED) eqn:Hrs;
      destruct fresh as [|f fresh];
      cbn [nonEmpty isSome negb andb orb WebSocket.readyState];
      rewrite ?Hrs; cbn [negb andb orb];
      try destruct test;
      cbn [negb andb orb wsConnection currentUrl lastMessageReceivedAt
           connectionOpenedAt desiredSubscriptions providerDataStreamEstablished
           stale desired new option_map];
      destruct wanted as [|w wanted]; cbn [nonEmpty andb orb];
      try destruct (settles (establish u));
      cbn; rewrite ?app_nil_r; repeat split; reflexivity.
  - destruct fresh as [|f fresh];
      cbn [nonEmpty isSome negb andb orb];
      [cbn; repeat split; reflexivity|].
    destruct wanted as [|w wanted]; cbn [nonEmpty andb orb];
      try destruct (settles (establish u));
      cbn; rewrite ?app_nil_r; repeat split; reflexivity.
Qed.

(** The unresponsive test as one comparison: the clamping to zero and
    the [> 0] guard amount to measuring against [max(0, ttl)]. *)
Lemma connectionUnresponsive_iff (clock : Clock) (this : State P) :
  connectionUnresponsive ttl clock this = true
  <-> Z.min (now clock - lastMessageReceivedAt this)
            (now clock - connectionOpenedAt this) > Z.max 0 ttl.
Proof.
  unfold connectionUnresponsive, timeSinceLastActivity.
  rewrite andb_true_iff, !Z.ltb_lt. lia.
Qed.

Lemma closes_iff (clock : Clock) (this : State P) (subs : SubscriptionDeltas P) :
  closes config ttl clock this subs = true
  <-> connectionClosed this = false
      /\ (url config (desired subs) <> currentUrl this
          \/ Z.min (now clock - lastMessageReceivedAt this)
                   (now clock - connectionOpenedAt this) > Z.max 0 ttl).
Proof.
  unfold closes. rewrite andb_true_iff, orb_true_iff, negb_true_iff.
  rewrite connectionUnresponsive_iff. unfold urlChanged.
  rewrite negb_true_iff, String.eqb_neq.
  split; intros [Hopen [Hurl|Hidle]]; (split; [exact Hopen|]); auto; left; congruence.
Qed.

Lemma not_in_sendSubscriptions (subs : SubscriptionDeltas P) (e : Event) :
  Trace.isSend e = false -> ~ In e (sendSubscriptions config subs).
Proof.
  intros He Hin. apply sendSubscriptions_only_sends in Hin. congruence.
Qed.

(** A skipped tick does not close: there is no socket. *)
Lemma skips_closes (clock : Clock) (this : State P) (subs : SubscriptionDeltas P) :
  skips this subs = true -> closes config ttl clock this subs = false.
Proof.
  unfold skips, closes, connectionClosed. intros Hskip.
  apply andb_true_iff in Hskip. destruct Hskip as [_ Hnone].
  destruct (wsConnection this); [discriminate|reflexivity].
Qed.

Lemma in_events_close (clock : Clock) (this : State P) (subs : SubscriptionDeltas P) :
  In WsClose (events (streamHandler config ttl establish clock this subs))
  <-> closes config ttl clock this subs = true.
Proof.
  destruct (streamHandler_reading clock this subs) as [-> _].
  rewrite !in_app_iff. split.
  - intros [Hin|[Hin|Hin]].
    + destruct (closes config ttl clock this subs); [reflexivity|destruct Hin].
    + destruct (connects config ttl clock this subs); cbn in Hin; intuition discriminate.
    + destruct (_ || _); [destruct Hin|].
      now apply not_in_sendSubscriptions in Hin.
  - intros ->. left. now left.
Qed.

Lemma in_events_new (clock : Clock) (this : State P) (subs : SubscriptionDeltas P)
    (u : string) :
  In (WsNew u) (events (streamHandler config ttl establish clock this subs))
  <-> connects config ttl clock this subs = true /\ u = url config (desired subs).
Proof.
  destruct (streamHandler_reading clock this subs) as [-> _].
  rewrite !in_app_iff. split.
  - intros [Hin|[Hin|Hin]].
    + destruct (closes config ttl clock this subs); cbn in Hin; intuition discriminate.
    + destruct (connects config ttl clock this subs); cbn in Hin; [|destruct Hin].
      destruct Hin as [[= <-]|[]]. auto.
    + destruct (_ || _); [destruct Hin|].
      now apply not_in_sendSubscriptions in Hin.
  - intros [-> ->]. right. left. now left.
Qed.

(** X1.  A tick closes the socket exactly when it finds one that is not
    closed and either the configured URL differs from [currentUrl] or the
    time since the last activity exceeds [max(0, ttl)]. *)
Theorem tick_closes_exactly_when
    (clock : Clock) (this : State P) (subs : SubscriptionDeltas P) :
  In WsClose (events (streamHandler config ttl establish clock this subs))
  <-> connectionClosed this = false
      /\ (url config (desired subs) <> currentUrl this
          \/ Z.min (now clock - lastMessageReceivedAt this)
                   (now clock - connectionOpenedAt this) > Z.max 0 ttl).
Proof. rewrite in_events_close. apply closes_iff. Qed.

(** X2.  The events of a tick are, in this order: at most one close, at
    most one new socket, for the configured URL, and then messages only. *)
Theorem tick_events_in_order
    (clock : Clock) (this : State P) (subs : SubscriptionDeltas P) :
  exists closing opening sending,
    events (streamHandler config ttl establish clock this subs)
    = closing ++ opening ++ sending
    /\ (closing = [] \/ closing = [WsClose])
    /\ (opening = [] \/ opening = [WsNew (url config (desired subs))])
    /\ forallb Trace.isSend sending = true.
Proof.
  destruct (streamHandler_reading clock this subs) as [-> _].
  do 3 eexists. split; [reflexivity|]. split; [|split].
  - destruct (closes config ttl clock this subs); auto.
  - destruct (connects config ttl clock this subs); auto.
  - destruct (_ || _); [reflexivity|].
    apply forallb_forall. intros e. apply sendSubscriptions_only_sends.
Qed.

(** X3.  A transport configured without [builders] never sends a
    message, whatever the tick. *)
Theorem no_builders_never_sends
    (clock : Clock) (this : State P) (subs : SubscriptionDeltas P) :
  builders config = None ->
  forall message,
    ~ In (WsSend message)
         (events (streamHandler config ttl establish clock this subs)).
Proof.
  intros Hnone message.
  destruct (streamHandler_reading clock this subs) as [-> _].
  unfold sendSubscriptions. rewrite Hnone.
  rewrite !in_app_iff. intros [Hin|[Hin|Hin]].
  - destruct (closes config ttl clock this subs); cbn in Hin; intuition discriminate.
  - destruct (connects config ttl clock this subs); cbn in Hin; intuition discriminate.
  - destruct (_ || _); destruct Hin.
Qed.

(** X4.  When a tick creates a socket and the connection attempt does
    not resolve (it rejects, or stays pending), creating the socket is
    the last thing the tick does: no message is sent, the promise of the
    tick ends as the attempt does, [currentUrl] and
    [providerDataStreamEstablished] already hold the new values and
    [connectionOpenedAt] still holds the old one. *)
Theorem unresolved_attempt_sends_nothing
    (clock : Clock) (this : State P) (subs : SubscriptionDeltas P) (u : string) :
  let tick := streamHandler config ttl establish clock this subs in
  let target := url config (desired subs) in
  In (WsNew u) (events tick) ->
  settles (establish target) <> Resolved ->
  u = target
  /\ settled tick = settles (establish target)
  /\ (exists before, events tick = before ++ [WsNew target])
  /\ (forall message, ~ In (WsSend message) (events tick))
  /\ currentUrl (state tick) = target
  /\ providerDataStreamEstablished (state tick) = establishedAt clock
  /\ connectionOpenedAt (state tick) = connectionOpenedAt this.
Proof.
  intros tick target. subst tick target. intros Hnew Hunresolved.
  apply in_events_new in Hnew. destruct Hnew as [Hconnects ->].
  destruct (streamHandler_reading clock this subs)
    as (-> & _ & -> & _ & -> & _ & -> & _ & ->).
  rewrite Hconnects. split; [reflexivity|].
  destruct (settles (establish (url config (desired subs)))); [congruence| |].
  all: rewrite orb_true_r, app_nil_r; cbn [andb].
  all: split; [reflexivity|]; split; [eauto|]; split; [|auto].
  all: intros message Hin; apply in_app_or in Hin; destruct Hin as [Hin|Hin];
       [destruct (closes config ttl clock this subs)|]; cbn in Hin;
       intuition discriminate.
Qed.

(** What a tick does when it finds an open socket it has no reason to
    close. *)
Lemma steady_reading
    (clock : Clock) (this : State P) (subs : SubscriptionDeltas P) :
  connectionClosed this = false ->
  url config (desired subs) = currentUrl this ->
  Z.min (now clock - lastMessageReceivedAt this)
        (now clock - connectionOpenedAt this) <= Z.max 0 ttl ->
  skips this subs = false
  /\ closes config ttl clock this subs = false
  /\ connects config ttl clock this subs = false.
Proof.
  intros Hopen Hurl Hidle.
  assert (Hcloses : closes config ttl clock this subs = false).
  { apply not_true_iff_false. rewrite closes_iff. intros [_ [Hne|Hgt]]; [congruence|lia]. }
  assert (Hskips : skips this subs = false).
  { unfold skips. unfold connectionClosed in Hopen.
    destruct (wsConnection this); [|discriminate]. cbn. apply andb_false_r. }
  unfold connects. rewrite Hcloses, Hopen, Hskips. auto.
Qed.

(** X5.  A tick that finds a socket not closed, the configured URL equal
    to [currentUrl] and activity within [max(0, ttl)] neither closes nor
    opens anything: it sends the messages for the new and the stale
    subscriptions, leaves the deltas untouched, and changes no field but
    [desiredSubscriptions]. *)
Theorem steady_tick_only_sends
    (clock : Clock) (this : State P) (subs : SubscriptionDeltas P) :
  connectionClosed this = false ->
  url config (desired subs) = currentUrl this ->
  Z.min (now clock - lastMessageReceivedAt this)
        (now clock - connectionOpenedAt this) <= Z.max 0 ttl ->
  let tick := streamHandler config ttl establish clock this subs in
  events tick = sendSubscriptions config subs
  /\ subscriptions tick = subs
  /\ settled tick = Resolved
  /\ state tick
     = mkState (wsConnection this) (currentUrl this) (lastMessageReceivedAt this)
               (connectionOpenedAt this) (desired subs)
               (providerDataStreamEstablished this).
Proof.
  intros Hopen Hurl Hidle tick. subst tick.
  destruct (steady_reading clock this subs Hopen Hurl Hidle)
    as (Hskips & Hcloses & Hconnects).
  destruct (streamHandler_reading clock this subs)
    as (Hev & Hsubs & Hset & Hws & Hcur & Hlast & Hopened & Hdes & Hest).
  unfold deltasAfter in *. rewrite Hskips, Hcloses, Hconnects in *.
  cbn [orb andb app] in *.
  repeat split; try assumption.
  destruct (state (streamHandler config ttl establish clock this subs)).
  cbn in *. congruence.
Qed.

(** X6.  After a tick that resolved, was not skipped and had something
    desired, the transport holds a socket object, and [currentUrl] is the
    configured URL for the desired subscriptions. *)
Theorem resolved_tick_leaves_connection
    (clock : Clock) (this : State P) (subs : SubscriptionDeltas P) :
  let tick := streamHandler config ttl establish clock this subs in
  settled tick = Resolved ->
  skips this subs = false ->
  desired subs <> [] ->
  wsConnection (state tick) <> None
  /\ currentUrl (state tick) = url config (desired subs).
Proof.
  intros tick. subst tick.
  destruct (streamHandler_reading clock this subs)
    as (_ & _ & -> & -> & -> & _).
  intros Hresolved Hskips Hdesired.
  destruct (connects config ttl clock this subs) eqn:Hconnects.
  - split; [discriminate|reflexivity].
  - unfold connects in Hconnects. rewrite Hskips in Hconnects.
    assert (Hwanted : nonEmpty (desired subs) = true)
      by (destruct (desired subs); [congruence|reflexivity]).
    rewrite Hwanted, andb_true_r in Hconnects. cbn [negb andb] in Hconnects.
    apply orb_false_iff in Hconnects. destruct Hconnects as [Hcloses Hopen].
    rewrite Hcloses. split.
    + unfold connectionClosed in Hopen.
      destruct (wsConnection this); [discriminate|discriminate Hopen].
    + unfold closes in Hcloses. rewrite Hopen in Hcloses.
      cbn [negb andb] in Hcloses.
      apply orb_false_iff in Hcloses. destruct Hcloses as [Hurl _].
      unfold urlChanged in Hurl. apply negb_false_iff, String.eqb_eq in Hurl.
      congruence.
Qed.

(** X8.  A tick never changes the stale and desired parts of the deltas
    object; it assigns the desired set to the new part exactly when it
    closes the socket itself, and leaves the object alone otherwise (so
    also when it reconnects after finding the socket closed). *)
Theorem deltas_reassigned_only_on_close
    (clock : Clock) (this : State P) (subs : SubscriptionDeltas P) :
  let tick := streamHandler config ttl establish clock this subs in
  stale (subscriptions tick) = stale subs
  /\ desired (subscriptions tick) = desired subs
  /\ (In WsClose (events tick) -> new (subscriptions tick) = desired subs)
  /\ (~ In WsClose (events tick) -> subscriptions tick = subs).
Proof.
  intros tick. subst tick. rewrite in_events_close.
  destruct (streamHandler_reading clock this subs) as (_ & -> & _).
  unfold deltasAfter.
  destruct (closes config ttl clock this subs); cbn; intuition congruence.
Qed.

(** X9.  A tick never touches [lastMessageReceivedAt] and always records
    the desired subscriptions; a tick that creates no socket leaves
    [currentUrl], [providerDataStreamEstablished] and
    [connectionOpenedAt] as they were. *)
Theorem tick_frame
    (clock : Clock) (this : State P) (subs : SubscriptionDeltas P) :
  let tick := streamHandler config ttl establish clock this subs in
  lastMessageReceivedAt (state tick) = lastMessageReceivedAt this
  /\ desiredSubscriptions (state tick) = desired subs
  /\ ((forall u, ~ In (WsNew u) (events tick)) ->
      currentUrl (state tick) = currentUrl this
      /\ providerDataStreamEstablished (state tick) = providerDataStreamEstablished this
      /\ connectionOpenedAt (state tick) = connectionOpenedAt this).
Proof.
  intros tick. subst tick.
  split; [apply (streamHandler_reading clock this subs)|].
  split; [apply (streamHandler_reading clock this subs)|].
  intros Hnone.
  destruct (streamHandler_reading clock this subs)
    as (_ & _ & _ & _ & -> & _ & -> & _ & ->).
  destruct (connects config ttl clock this subs) eqn:Hconnects; [|auto].
  exfalso. apply (Hnone (url config (desired subs))).
  apply in_events_new. auto.
Qed.

(** X10.  When the frame does not deserialize, the message listener
    throws, changes no field and writes nothing.  What it writes is what
    the handler returned, in the same order, each result stamped with the
    time the frame was received and with the provider's own time when the
    result had one.  It changes no field other than
    [lastMessageReceivedAt]. *)
Theorem onMessage_stamps_what_the_handler_returns
    (this : State P) (data : string) (providerDataReceived receivedAt : Z) :
  let inbound := onMessage config this data providerDataReceived receivedAt in
  (deserializeMessage data = None ->
   threw inbound = true /\ after inbound = this /\ written inbound = None)
  /\ (forall results,
      written inbound = Some results ->
      exists parsed,
        deserializeMessage data = Some parsed
        /\ message config parsed (desiredSubscriptions this)
           = Some (map result results)
        /\ Forall (fun r =>
                     Timestamps.providerDataReceived (timestamps r)
                     = providerDataReceived
                     /\ Timestamps.providerIndicatedTime (timestamps r)
                        = indicatedTime (result r))
                  results)
  /\ wsConnection (after inbound) = wsConnection this
  /\ currentUrl (after inbound) = currentUrl this
  /\ connectionOpenedAt (after inbound) = connectionOpenedAt this
  /\ desiredSubscriptions (after inbound) = desiredSubscriptions this
  /\ providerDataStreamEstablished (after inbound)
     = providerDataStreamEstablished this.
Proof.
  intros inbound. subst inbound. unfold onMessage.
  destruct (deserializeMessage data) as [parsed|]; cbn [threw after written].
  - destruct (message config parsed (desiredSubscriptions this)) as [returned|]
      eqn:Hreturned;
      cbn [option_map threw after written wsConnection currentUrl
           connectionOpenedAt desiredSubscriptions providerDataStreamEstablished].
    + split; [discriminate|]. split; [|auto 6].
      intros results [= <-]. exists parsed. split; [reflexivity|].
      split.
      * rewrite map_map. unfold stamp. cbn [result]. now rewrite map_id.
      * apply Forall_forall. intros r Hin. apply in_map_iff in Hin.
        destruct Hin as [r0 [<- _]]. cbn. auto.
    + split; [discriminate|]. split; [discriminate|auto 6].
  - split; [auto|]. split; [discriminate|auto 6].
Qed.

(** C4, as the code has it.  Every result written to the cache from an
    inbound message carries [timestamps.providerDataStreamEstablished]
    equal to the transport's field of that name at the time the message
    is handled.  A tick that creates a socket has set that field to the
    time read just before it started to establish the connection, however
    the attempt ends, so also for a message that arrives while the
    attempt is pending; [connectionOpenedAt] is read after the connection
    has opened, and holds its old value until then.  A tick that creates
    no socket leaves the field as it was. *)
Theorem written_results_carry_stream_established_field
    (this : State P) (data : string) (providerDataReceived receivedAt : Z)
    (results : list (TimestampedProviderResult P R))
    (r : TimestampedProviderResult P R) :
  written (onMessage config this data providerDataReceived receivedAt)
  = Some results ->
  In r results ->
  Timestamps.providerDataStreamEstablished (timestamps r)
  = providerDataStreamEstablished this
  /\ forall clock before subs,
       this = state (streamHandler config ttl establish clock before subs) ->
       ((exists u,
            In (WsNew u)
               (events (streamHandler config ttl establish clock before subs))) ->
        providerDataStreamEstablished this = establishedAt clock
        /\ (settled (streamHandler config ttl establish clock before subs)
            = Resolved ->
            connectionOpenedAt this = openedAt clock)
        /\ (settled (streamHandler config ttl establish clock before subs)
            <> Resolved ->
            connectionOpenedAt this = connectionOpenedAt before))
       /\ ((forall u,
               ~ In (WsNew u)
                    (events (streamHandler config ttl establish clock before subs))) ->
           providerDataStreamEstablished this
           = providerDataStreamEstablished before).
Proof.
  intros Hwritten Hin.
  split; [exact (stamped_with_field config this data _ _ results r Hwritten Hin)|].
  intros clock before subs ->.
  destruct (streamHandler_reading clock before subs)
    as (_ & _ & Hsettled & _ & _ & _ & Hopened & _ & Hestablished).
  rewrite Hsettled, Hopened, Hestablished. split.
  - intros [u Hnew]. apply in_events_new in Hnew. destruct Hnew as [-> _].
    split; [reflexivity|].
    destruct (settles (establish (url config (desired subs))));
      cbn [andb]; split; congruence.
  - intros Hnone.
    destruct (connects config ttl clock before subs) eqn:Hconnects; [|reflexivity].
    exfalso. apply (Hnone (url config (desired subs))).
    apply in_events_new. auto.
Qed.

End TickFacts.

Section TickRuns.
Import WebSocketTransport Decisions.

(** X3 at work on the feed that takes its subscriptions in the URL. *)
Lemma no_builders_never_sends_witness :
  builders Feed.byUrl = None
  /\ ~ In (WsSend "8")
          (events (streamHandler Feed.byUrl 1000 Feed.reachable
                     (mkClock 200 201 250) Feed.connected
                     (mkDeltas [8%nat] [] [7%nat; 8%nat]))).
Proof.
  split; [reflexivity|].
  apply (no_builders_never_sends Feed.byUrl 1000 Feed.reachable
           (mkClock 200 201 250) Feed.connected
           (mkDeltas [8%nat] [] [7%nat; 8%nat])).
  reflexivity.
Defined.

(** X4 at work: the first connection is refused. *)
Lemma unresolved_attempt_sends_nothing_witness :
  In (WsNew "wss://a")
     (events (streamHandler Feed.byMessage 1000 Outage.unreachable
                (mkClock 99 100 150) initial (mkDeltas [7%nat] [] [7%nat])))
  /\ settles (Outage.unreachable (url Feed.byMessage [7%nat])) <> Resolved
  /\ (forall message,
        ~ In (WsSend message)
             (events (streamHandler Feed.byMessage 1000 Outage.unreachable
                        (mkClock 99 100 150) initial
                        (mkDeltas [7%nat] [] [7%nat]))))
  /\ currentUrl (state (streamHandler Feed.byMessage 1000 Outage.unreachable
                          (mkClock 99 100 150) initial
                          (mkDeltas [7%nat] [] [7%nat]))) = "wss://a"
  /\ connectionOpenedAt (state (streamHandler Feed.byMessage 1000 Outage.unreachable
                                  (mkClock 99 100 150) initial
                                  (mkDeltas [7%nat] [] [7%nat]))) = 0.
Proof.
  split; [left; reflexivity|]. split; [discriminate|].
  destruct (unresolved_attempt_sends_nothing Feed.byMessage 1000 Outage.unreachable
              (mkClock 99 100 150) initial (mkDeltas [7%nat] [] [7%nat]) "wss://a")
    as (_ & _ & _ & Hsends & Hurl & _ & Hopened);
    [left; reflexivity | discriminate |].
  split; [exact Hsends|]. split; [exact Hurl|exact Hopened].
Defined.

(** X5 at work: 50 ms after the connection opened. *)
Lemma steady_tick_only_sends_witness :
  connectionClosed Feed.connected = false
  /\ url Feed.byMessage [7%nat] = currentUrl Feed.connected
  /\ Z.min (200 - lastMessageReceivedAt Feed.connected)
           (200 - connectionOpenedAt Feed.connected) <= Z.max 0 1000
  /\ events (streamHandler Feed.byMessage 1000 Feed.reachable
               (mkClock 200 201 250) Feed.connected
               (mkDeltas [] [9%nat] [7%nat]))
     = [WsSend "9"].
Proof.
  split; [reflexivity|]. split; [reflexivity|]. split; [cbn; lia|].
  destruct (steady_tick_only_sends Feed.byMessage 1000 Feed.reachable
              (mkClock 200 201 250) Feed.connected
              (mkDeltas [] [9%nat] [7%nat]))
    as (Hevents & _); [reflexivity|reflexivity|cbn; lia|].
  exact Hevents.
Defined.

(** X6 at work on the first tick of a transport. *)
Lemma resolved_tick_leaves_connection_witness :
  settled (streamHandler Feed.byMessage 1000 Feed.reachable (mkClock 99 100 150)
             initial (mkDeltas [7%nat] [] [7%nat])) = Resolved
  /\ skips (initial (P:=nat)) (mkDeltas [7%nat] [] [7%nat]) = false
  /\ wsConnection
       (state (streamHandler Feed.byMessage 1000 Feed.reachable
                 (mkClock 99 100 150) initial (mkDeltas [7%nat] [] [7%nat])))
     <> None
  /\ currentUrl
       (state (streamHandler Feed.byMessage 1000 Feed.reachable
                 (mkClock 99 100 150) initial (mkDeltas [7%nat] [] [7%nat])))
     = "wss://a".
Proof.
  split; [reflexivity|]. split; [reflexivity|].
  apply (resolved_tick_leaves_connection Feed.byMessage 1000 Feed.reachable
           (mkClock 99 100 150) initial (mkDeltas [7%nat] [] [7%nat]));
    [reflexivity | reflexivity | discriminate].
Defined.

(** C4 at work: the connection attempt is pending when a price arrives;
    the price is stamped with the time read before the attempt, 100, and
    [connectionOpenedAt] is still 0. *)
Lemma written_results_carry_stream_established_field_witness :
  written (onMessage Feed.byMessage
             (state (streamHandler Feed.byMessage 1000 Outage.unreachable
                       (mkClock 99 100 150) initial
                       (mkDeltas [7%nat] [] [7%nat])))
             "5" 300 301)
  = Some [mkTimestamped (mkProviderResult 5%nat 5%nat None)
                        (Timestamps.mk 100 300 None)]
  /\ Timestamps.providerDataStreamEstablished
       (timestamps (mkTimestamped (mkProviderResult 5%nat 5%nat None)
                                  (Timestamps.mk 100 300 None)))
     = providerDataStreamEstablished
         (state (streamHandler Feed.byMessage 1000 Outage.unreachable
                   (mkClock 99 100 150) initial (mkDeltas [7%nat] [] [7%nat])))
  /\ providerDataStreamEstablished
       (state (streamHandler Feed.byMessage 1000 Outage.unreachable
                 (mkClock 99 100 150) initial (mkDeltas [7%nat] [] [7%nat])))
     = 100
  /\ connectionOpenedAt
       (state (streamHandler Feed.byMessage 1000 Outage.unreachable
                 (mkClock 99 100 150) initial (mkDeltas [7%nat] [] [7%nat])))
     = 0.
Proof.
  assert (Hwritten :
            written (onMessage Feed.byMessage
                       (state (streamHandler Feed.byMessage 1000 Outage.unreachable
                                 (mkClock 99 100 150) initial
                                 (mkDeltas [7%nat] [] [7%nat])))
                       "5" 300 301)
            = Some [mkTimestamped (mkProviderResult 5%nat 5%nat None)
                                  (Timestamps.mk 100 300 None)])
    by reflexivity.
  split; [exact Hwritten|].
  destruct (written_results_carry_stream_established_field
              Feed.byMessage 1000 Outage.unreachable
              (state (streamHandler Feed.byMessage 1000 Outage.unreachable
                        (mkClock 99 100 150) initial
                        (mkDeltas [7%nat] [] [7%nat])))
              "5" 300 301
              [mkTimestamped (mkProviderResult 5%nat 5%nat None)
                             (Timestamps.mk 100 300 None)]
              (mkTimestamped (mkProviderResult 5%nat 5%nat None)
                             (Timestamps.mk 100 300 None))
              Hwritten (or_introl eq_refl))
    as [Hstamp Hfield].
  split; [exact Hstamp|].
  destruct (Hfield (mkClock 99 100 150) initial (mkDeltas [7%nat] [] [7%nat])
              eq_refl) as [Hcreated _].
  destruct Hcreated as (Hestablished & _ & Hpending).
  - exists "wss://a". left. reflexivity.
  - split; [exact Hestablished|]. apply Hpending. discriminate.
Defined.

End TickRuns.

(** ** More on the Redis subscription set *)

Section MoreSortedSetFacts.
Import Redis.

Lemma filter_insert_length (f : string * Z -> bool) (e : string * Z) (s : SortedSet) :
  List.length (filter f (insert e s)) = List.length (filter f (e :: s)).
Proof.
  induction s as [|x s IH]; [reflexivity|].
  cbn [insert]. destruct (entry_leb e x); [reflexivity|].
  cbn [filter] in *. destruct (f x), (f e); cbn [List.length] in *; lia.
Qed.

Lemma filter_member_zrem (s : SortedSet) (member : string) :
  filter (fun e => String.eqb (fst e) member) (zrem s member) = [].
Proof.
  unfold zrem. induction s as [|x s IH]; [reflexivity|].
  cbn [filter]. destruct (String.eqb (fst x) member) eqn:Hx; cbn [negb].
  - exact IH.
  - cbn [filter]. rewrite Hx. exact IH.
Qed.

Lemma zremrangebyscore_twice (s : SortedSet) (t1 t2 : Z) :
  t1 <= t2 ->
  zremrangebyscore_from_neg_inf (zremrangebyscore_from_neg_inf s t1) t2
  = zremrangebyscore_from_neg_inf s t2.
Proof.
  intros Hle. unfold zremrangebyscore_from_neg_inf.
  induction s as [|x s IH]; [reflexivity|].
  cbn [filter]. destruct (snd x <=? t1) eqn:H1; cbn [negb].
  - assert (H2 : (snd x <=? t2) = true) by (apply Z.leb_le; apply Z.leb_le in H1; lia).
    rewrite H2. cbn [negb]. exact IH.
  - cbn [filter]. destruct (snd x <=? t2); cbn [negb]; now rewrite IH.
Qed.

End MoreSortedSetFacts.

Lemma mapM_none_iff {A B : Type} (f : A -> option B) (xs : list A) :
  mapM f xs = None <-> exists x, In x xs /\ f x = None.
Proof.
  induction xs as [|x xs IH]; cbn.
  - split; [discriminate|]. intros [x [[] _]].
  - destruct (f x) as [y|] eqn:Hfx.
    + destruct (mapM f xs) as [ys|]; cbn.
      * split; [discriminate|]. intros [x' [[<-|Hin] Hnone]]; [congruence|].
        destruct IH as [_ IH]. discriminate IH. eauto.
      * split; [|reflexivity]. intros _.
        destruct IH as [IH _]. destruct (IH eq_refl) as [x' [Hin Hnone]]. eauto.
    + split; [|reflexivity]. intros _. eauto.
Qed.

Lemma append_injective (prefix a b : string) :
  (prefix ++ a)%string = (prefix ++ b)%string -> a = b.
Proof.
  induction prefix as [|c prefix IH]; cbn; [auto|]. intros [= Heq]. auto.
Qed.

Section MoreRedisSubscriptionSet.
Import RedisSubscriptionSet.
Context {T : Type} `{Json T}.

Lemma added_member_score
    (store : Redis.SortedSet) (key : string) (value : T) (ttl now score : Z) :
  In (storedValue key value, score) (add store key value ttl now) ->
  score = now + ttl.
Proof.
  intros Hin. apply in_zadd in Hin.
  destruct Hin as [[= ->]|[_ Hne]]; [reflexivity|]. now destruct Hne.
Qed.

(** X11.  After [add], the set holds exactly one entry for the member
    written, and its score is [now + ttl], whatever entry the set held
    for that member before: a repeated [add] replaces the expiry, also by
    an earlier one. *)
Theorem add_leaves_one_entry_for_member
    (store : Redis.SortedSet) (key : string) (value : T) (ttl now : Z) :
  List.length
    (filter (fun e => String.eqb (fst e) (storedValue key value))
            (add store key value ttl now)) = 1%nat
  /\ forall score,
       In (storedValue key value, score) (add store key value ttl now) ->
       score = now + ttl.
Proof.
  split; [|intros score; apply added_member_score].
  unfold add, Redis.zadd.
  rewrite filter_insert_length. cbn [filter fst].
  rewrite String.eqb_refl, filter_member_zrem. reflexivity.
Qed.

(** X12.  A [getAll] at or after the expiry of an added entry removes
    its member from the set, whatever else the set holds. *)
Theorem expired_member_is_gone
    (store : Redis.SortedSet) (key : string) (value : T) (ttl now later : Z) :
  now + ttl <= later ->
  ~ In (storedValue key value)
       (Redis.zrange_all (fst (getAll (T:=T) (add store key value ttl now) later))).
Proof.
  intros Hexpired Hin. unfold getAll, Redis.zrange_all in Hin. cbn [fst] in Hin.
  apply in_map_iff in Hin. destruct Hin as [[member score] [Hmember Hentry]].
  cbn in Hmember. subst member.
  apply in_zremrangebyscore in Hentry. destruct Hentry as [Hentry Hlive].
  cbn in Hlive. apply added_member_score in Hentry. lia.
Qed.

(** X13.  Reading twice is reading once at the later time: a [getAll]
    after an earlier [getAll] leaves the same set and returns the same
    result as a single [getAll] at the later time. *)
Theorem getAll_after_getAll (store : Redis.SortedSet) (earlier later : Z) :
  earlier <= later ->
  getAll (T:=T) (fst (getAll (T:=T) store earlier)) later
  = getAll (T:=T) store later.
Proof.
  intros Hle. unfold getAll. cbn [fst].
  now rewrite (zremrangebyscore_twice store earlier later Hle).
Qed.

(** X14.  [getAll] throws, a [SyntaxError], exactly when some member
    that has not expired does not decode; one such member hides every
    other value.  The expired members are removed all the same. *)
Theorem getAll_throws_exactly_when (store : Redis.SortedSet) (now : Z) :
  (snd (getAll (T:=T) store now) = Throw SyntaxError
   <-> exists member score,
         In (member, score) store /\ now < score
         /\ parseEntry (T:=T) member = None)
  /\ fst (getAll (T:=T) store now)
     = Redis.zremrangebyscore_from_neg_inf store now.
Proof.
  split; [|reflexivity].
  unfold getAll. cbn [snd].
  destruct (mapM parseEntry
              (Redis.zrange_all (Redis.zremrangebyscore_from_neg_inf store now)))
    as [values|] eqn:Hall.
  - split; [discriminate|]. intros (member & score & Hin & Hlive & Hbad).
    exfalso.
    assert (Hnone : mapM (parseEntry (T:=T))
                      (Redis.zrange_all
                         (Redis.zremrangebyscore_from_neg_inf store now)) = None).
    { apply mapM_none_iff. exists member. split; [|exact Hbad].
      unfold Redis.zrange_all. apply in_map_iff. exists (member, score).
      split; [reflexivity|]. apply in_zremrangebyscore. auto. }
    congruence.
  - split; [|reflexivity]. intros _.
    apply mapM_none_iff in Hall. destruct Hall as [member [Hin Hbad]].
    unfold Redis.zrange_all in Hin. apply in_map_iff in Hin.
    destruct Hin as [[member' score] [Hfst Hentry]]. cbn in Hfst. subst member'.
    apply in_zremrangebyscore in Hentry. exists member, score. tauto.
Qed.

(** X15.  Decoding reads the text between the first and the second
    delimiter: an entry without a delimiter does not decode, and whatever
    follows a second delimiter is ignored. *)
Theorem parseEntry_reads_second_piece :
  (forall entry, free_of DELIMITER entry = true -> parseEntry (T:=T) entry = None)
  /\ (forall key text rest,
      free_of DELIMITER key = true ->
      free_of DELIMITER text = true ->
      parseEntry (T:=T) (key ++ String DELIMITER (text ++ String DELIMITER rest))
      = JSON_parse text).
Proof.
  split.
  - intros entry Hfree. unfold parseEntry. now rewrite (split_free _ _ Hfree).
  - intros key text rest Hkey Htext. unfold parseEntry.
    assert (Hsplit : forall s, exists pieces,
               split DELIMITER (text ++ String DELIMITER s) = text :: pieces).
    { intros s. induction text as [|c text' IH]; cbn.
      - eauto.
      - cbn in Htext. apply andb_true_iff in Htext. destruct Htext as [Hc Htext'].
        apply negb_true_iff in Hc. rewrite Hc.
        destruct (IH Htext') as [pieces ->]. eauto. }
    destruct (Hsplit rest) as [pieces Hpieces].
    induction key as [|c key' IH]; cbn.
    + rewrite Hpieces. reflexivity.
    + cbn in Hkey. apply andb_true_iff in Hkey. destruct Hkey as [Hc Hkey'].
      apply negb_true_iff in Hc. rewrite Hc.
      specialize (IH Hkey').
      destruct (split DELIMITER
                  (key' ++ String DELIMITER (text ++ String DELIMITER rest)))
        as [|piece [|second more]]; cbn in *; try discriminate; exact IH.
Qed.

(** X16.  [add] touches no member but the one it writes; in particular
    adding under a key that is already there with a value of another
    JSON text keeps the older entry, so that both are in the set. *)
Theorem add_keeps_other_members
    (store : Redis.SortedSet) (key : string) (value : T) (ttl now : Z) :
  (forall member score,
      member <> storedValue key value ->
      (In (member, score) (add store key value ttl now)
       <-> In (member, score) store))
  /\ (forall older score,
      JSON_stringify older <> JSON_stringify value ->
      In (storedValue key older, score) store ->
      In (storedValue key older, score) (add store key value ttl now)
      /\ In (storedValue key value, now + ttl) (add store key value ttl now)).
Proof.
  assert (Hother : forall member score,
             member <> storedValue key value ->
             (In (member, score) (add store key value ttl now)
              <-> In (member, score) store)).
  { intros member score Hne. unfold add. rewrite in_zadd. cbn [fst].
    split; [intros [[= -> _]|[Hin _]]; [now destruct Hne|exact Hin] | auto]. }
  split; [exact Hother|].
  intros older score Hjson Hin. split.
  - apply Hother; [|exact Hin]. unfold storedValue. intros Heq.
    apply append_injective in Heq. injection Heq as Heq. auto.
  - apply in_zadd. now left.
Qed.

End MoreRedisSubscriptionSet.

Section MoreRedisRuns.
Import RedisSubscriptionSet.

(** X12 at work. *)
Lemma expired_member_is_gone_witness :
  100 + 5 <= 105
  /\ ~ In "eth>2"
          (Redis.zrange_all
             (fst (getAll (T:=nat)
                     (add (add [] "btc" 1%nat 10 100) "eth" 2%nat 5 100) 105))).
Proof.
  split; [lia|].
  exact (expired_member_is_gone (add [] "btc" 1%nat 10 100) "eth" 2%nat 5 100 105
           ltac:(lia)).
Defined.

(** X13 at work. *)
Lemma getAll_after_getAll_witness :
  104 <= 105
  /\ getAll (T:=nat)
       (fst (getAll (T:=nat)
               (add (add [] "btc" 1%nat 10 100) "eth" 2%nat 5 100) 104)) 105
     = ([("btc>1", 110)], Return [1%nat]).
Proof.
  split; [lia|].
  rewrite (getAll_after_getAll (T:=nat)
             (add (add [] "btc" 1%nat 10 100) "eth" 2%nat 5 100) 104 105);
    [reflexivity|lia].
Defined.

(** X14 at work: a member written by something else than [add]. *)
Lemma getAll_throws_exactly_when_witness :
  snd (getAll (T:=nat) [("btc>1", 110); ("stray", 120)] 105) = Throw SyntaxError.
Proof.
  apply (proj1 (getAll_throws_exactly_when (T:=nat)
                  [("btc>1", 110); ("stray", 120)] 105)).
  exists "stray", 120. split; [right; left; reflexivity|]. split; [lia|reflexivity].
Defined.

(** X15 at work: of the text [1>2] only [1] is read. *)
Lemma parseEntry_reads_second_piece_witness :
  free_of DELIMITER "k" = true
  /\ free_of DELIMITER "1" = true
  /\ parseEntry (T:=nat) "k>1>2" = Some 1%nat.
Proof.
  split; [reflexivity|]. split; [reflexivity|].
  rewrite (proj2 (parseEntry_reads_second_piece (T:=nat)) "k" "1" "2");
    reflexivity.
Defined.

(** X16 at work: one key, two values. *)
Lemma add_keeps_other_members_witness :
  JSON_stringify 1%nat <> JSON_stringify 2%nat
  /\ In ("k>1", 110) (add (add [] "k" 1%nat 10 100) "k" 2%nat 10 101)
  /\ In ("k>2", 111) (add (add [] "k" 1%nat 10 100) "k" 2%nat 10 101).
Proof.
  split; [intros E; cbv in E; inversion E|].
  exact (proj2 (add_keeps_other_members (add [] "k" 1%nat 10 100) "k" 2%nat 10 101)
           1%nat 110 ltac:(intros E; cbv in E; inversion E)
           ltac:(left; reflexivity)).
Defined.

End MoreRedisRuns.

(** ** More on routing *)

Section LowerCaseFacts.
Import AdapterEndpoint.

Lemma toLowerAscii_idempotent (c : ascii) :
  toLowerAscii (toLowerAscii c) = toLowerAscii c.
Proof. destruct c as [[] [] [] [] [] [] [] []]; reflexivity. Qed.

Lemma toLowerCase_idempotent (s : string) :
  toLowerCase (toLowerCase s) = toLowerCase s.
Proof.
  induction s as [|c s IH]; [reflexivity|].
  cbn. now rewrite toLowerAscii_idempotent, IH.
Qed.

End LowerCaseFacts.

Section MoreEndpointFacts.
Import AdapterEndpoint.
Context {T D : Type}.

Lemma ownProperty_in (entries : list (string * T)) (k : string) (v : T) :
  ownProperty entries k = Some v -> In k (map fst entries).
Proof.
  induction entries as [|[k' v'] entries IH]; cbn; [discriminate|].
  destruct (String.eqb k' k) eqn:Hk.
  - apply String.eqb_eq in Hk. auto.
  - auto.
Qed.

Lemma in_ownProperty (entries : list (string * T)) (k : string) :
  In k (map fst entries) -> exists v, ownProperty entries k = Some v.
Proof.
  induction entries as [|[k' v'] entries IH]; cbn; [intros []|].
  destruct (String.eqb k' k) eqn:Hk; [eauto|].
  intros [Heq|Hin]; [|auto]. apply String.eqb_neq in Hk. congruence.
Qed.


(** What the constructor does with an explicit transports object. *)
Lemma constructor_explicit
    (entries : list (string * T))
    (router : option (AdapterRequest D -> option string)) (default : option string)
    (endpoint : t T D) :
  constructor (withTransports entries router default) = Return endpoint ->
  endpoint = mk entries router default
  /\ forall name, In name (map fst entries) -> validTransportName name = true.
Proof.
  unfold constructor.
  destruct (find (fun name => negb (validTransportName name)) (map fst entries))
    eqn:Hfind; [discriminate|].
  intros [= <-]. split; [reflexivity|].
  intros name Hin. pose proof (find_none _ _ Hfind name Hin) as Hok.
  now apply negb_false_iff in Hok.
Qed.

(** The routing of an endpoint that holds no entry under the reserved
    name and whose router, if any, gives nothing for the request. *)
Lemma routing_by_request
    (this : t T D) (req : AdapterRequest D) (requested : string) :
  ownProperty (transports this) DEFAULT_TRANSPORT_NAME = None ->
  truthy (match customRouter this with
          | Some router => router req
          | None => None
          end) = false ->
  transport req = Some requested ->
  requested <> EmptyString ->
  getTransportNameForRequest this req
  = if truthyProperty (transports this) (toLowerCase requested)
    then Return (toLowerCase requested)
    else Throw (AdapterError 400).
Proof.
  intros Hreserved Hrouter Hrequested Hnonempty.
  unfold getTransportNameForRequest, truthyProperty at 1.
  rewrite Hreserved. cbn [isSome orb].
  replace (existsb (String.eqb DEFAULT_TRANSPORT_NAME) Object_prototype)
    with false by reflexivity.
  unfold or_else, defaultRouter. rewrite Hrouter, Hrequested.
  destruct requested as [|c requested]; [congruence|].
  cbn [truthy negb].
  now destruct (truthyProperty (transports this) (toLowerCase (String c requested))).
Qed.

(** X17.  An endpoint built from a single [transport] routes every
    request to it, whatever transport the request asks for. *)
Theorem single_transport_endpoint_routes_every_request_to_it
    (transport : T) (req : AdapterRequest D) :
  exists endpoint : t T D,
    constructor (withTransport transport) = Return endpoint
    /\ getTransportNameForRequest endpoint req = Return DEFAULT_TRANSPORT_NAME
    /\ ownProperty (transports endpoint) DEFAULT_TRANSPORT_NAME = Some transport.
Proof. eexists. split; [reflexivity|]. split; reflexivity. Qed.

Lemma routing_outcome (this : t T D) (req : AdapterRequest D) :
  match getTransportNameForRequest this req with
  | Return name =>
      truthyProperty (transports this) name = true
      /\ (name = DEFAULT_TRANSPORT_NAME \/ toLowerCase name = name)
  | Throw error => error = AdapterError 400
  end.
Proof.
  unfold getTransportNameForRequest.
  destruct (truthyProperty (transports this) DEFAULT_TRANSPORT_NAME) eqn:Hreserved;
    [auto|].
  destruct (negb (truthy _)); [reflexivity|].
  destruct (or_else _ _) as [raw|]; [|reflexivity].
  destruct (truthyProperty (transports this) (toLowerCase raw)) eqn:Hknown;
    cbn [negb]; [|reflexivity].
  split; [exact Hknown|]. right. apply toLowerCase_idempotent.
Qed.


(** X19.  For an endpoint the constructor built from an explicit
    transports object, a name returned by routing that is not a property
    every object inherits is one of the keys of that object, made of
    lowercase letters, and never the reserved name. *)
Theorem constructed_endpoint_routes_to_registered_transport
    (entries : list (string * T))
    (router : option (AdapterRequest D -> option string)) (default : option string)
    (endpoint : t T D) (req : AdapterRequest D) (name : string) :
  constructor (withTransports entries router default) = Return endpoint ->
  getTransportNameForRequest endpoint req = Return name ->
  ~ In name Object_prototype ->
  (exists transport, ownProperty entries name = Some transport)
  /\ validTransportName name = true
  /\ name <> DEFAULT_TRANSPORT_NAME.
Proof.
  intros Hbuilt Hrouted Hinherited.
  destruct (constructor_explicit _ _ _ _ Hbuilt) as [-> Hvalid].
  pose proof (routing_outcome (mk entries router default) req) as Hknown.
  rewrite Hrouted in Hknown. destruct Hknown as [Hknown _].
  unfold truthyProperty in Hknown. cbn [transports] in Hknown.
  apply orb_true_iff in Hknown. destruct Hknown as [Hown|Hproto].
  - destruct (ownProperty entries name) as [transport|] eqn:Hentry; [|discriminate].
    assert (Hname : validTransportName name = true)
      by (apply Hvalid; eapply ownProperty_in; eassumption).
    split; [eauto|]. split; [exact Hname|].
    intros ->. discriminate Hname.
  - exfalso. apply Hinherited. apply existsb_exists in Hproto.
    destruct Hproto as [k [Hk Heq]]. apply String.eqb_eq in Heq. now subst k.
Qed.

(** X20.  Every transport registered through the constructor can be
    asked for by name in any letter case: when the custom router gives
    nothing, a request whose [data.transport] lowercases to a registered
    key is routed to that key. *)
Theorem registered_transport_is_reachable_in_any_case
    (entries : list (string * T))
    (router : option (AdapterRequest D -> option string)) (default : option string)
    (endpoint : t T D) (req : AdapterRequest D) (requested : string) :
  constructor (withTransports entries router default) = Return endpoint ->
  truthy (match router with
          | Some route => route req
          | None => None
          end) = false ->
  transport req = Some requested ->
  In (toLowerCase requested) (map fst entries) ->
  getTransportNameForRequest endpoint req = Return (toLowerCase requested).
Proof.
  intros Hbuilt Hrouter Hrequested Hregistered.
  destruct (constructor_explicit _ _ _ _ Hbuilt) as [-> Hvalid].
  assert (Hnonempty : requested <> EmptyString).
  { intros ->. specialize (Hvalid _ Hregistered). discriminate Hvalid. }
  rewrite (routing_by_request _ req requested); try assumption.
  - unfold truthyProperty. cbn [transports].
    destruct (in_ownProperty entries _ Hregistered) as [v ->]. reflexivity.
  - cbn [transports].
    destruct (ownProperty entries DEFAULT_TRANSPORT_NAME) as [v|] eqn:Hreserved;
      [|reflexivity].
    apply ownProperty_in in Hreserved. specialize (Hvalid _ Hreserved).
    discriminate Hvalid.
Qed.


End MoreEndpointFacts.

Section MoreEndpointRuns.
Import AdapterEndpoint.

(** X19 at work. *)
Lemma constructed_endpoint_routes_to_registered_transport_witness :
  constructor (T:=nat) (D:=unit)
    (withTransports [("ws", 1%nat); ("rest", 2%nat)] None (Some "rest"))
  = Return (mk [("ws", 1%nat); ("rest", 2%nat)] None (Some "rest"))
  /\ getTransportNameForRequest
       (mk (T:=nat) [("ws", 1%nat); ("rest", 2%nat)] None (Some "rest"))
       (mkRequest tt None)
     = Return "rest"
  /\ ~ In "rest" Object_prototype
  /\ validTransportName "rest" = true.
Proof.
  split; [reflexivity|]. split; [reflexivity|].
  assert (Hplain : ~ In "rest" Object_prototype).
  { cbn. intros Hin. repeat (destruct Hin as [Hin|Hin]; [discriminate|]). exact Hin. }
  split; [exact Hplain|].
  apply (constructed_endpoint_routes_to_registered_transport
           [("ws", 1%nat); ("rest", 2%nat)] None (Some "rest")
           (mk [("ws", 1%nat); ("rest", 2%nat)] None (Some "rest"))
           (mkRequest tt None) "rest");
    [reflexivity | reflexivity | exact Hplain].
Defined.

(** X20 at work: [REST] reaches [rest]. *)
Lemma registered_transport_is_reachable_in_any_case_witness :
  getTransportNameForRequest
    (mk (T:=nat) [("ws", 1%nat); ("rest", 2%nat)] None None)
    (mkRequest tt (Some "REST"))
  = Return "rest".
Proof.
  apply (registered_transport_is_reachable_in_any_case
           [("ws", 1%nat); ("rest", 2%nat)] None None
           (mk [("ws", 1%nat); ("rest", 2%nat)] None None)
           (mkRequest tt (Some "REST")) "REST");
    [reflexivity | reflexivity | reflexivity | right; left; reflexivity].
Defined.

End MoreEndpointRuns.

(** ** The symbol overrider *)

Section SymbolOverriderFacts.
Import AdapterEndpoint RequestTransforms.

(** X22.  Whatever names [toLowerCase] maps to what, for a lowercased
    endpoint name and a base that are not names every object inherits:
    an override given in the request for the endpoint (under its
    lowercased name) wins over an override of the endpoint; an empty or
    missing override is passed over; with neither, the request is
    returned as it is.  The overrides of the request are never changed,
    and a base that is not empty stays not empty. *)
Theorem symbolOverrider_precedence
    (lowercase : string -> string) (this : Endpoint) (req : Request) :
  plain (lowercase (name this)) = true ->
  plain (base req) = true ->
  let fromRequest :=
    read (read (bodyOverrides req) (lowercase (name this))) (base req) in
  let fromEndpoint := read (overrides this) (base req) in
  bodyOverrides (symbolOverriderBy lowercase this req) = bodyOverrides req
  /\ (forall replacement,
      fromRequest = Some replacement -> replacement <> EmptyString ->
      base (symbolOverriderBy lowercase this req) = replacement)
  /\ (forall replacement,
      truthy fromRequest = false ->
      fromEndpoint = Some replacement -> replacement <> EmptyString ->
      base (symbolOverriderBy lowercase this req) = replacement)
  /\ (truthy fromRequest = false -> truthy fromEndpoint = false ->
      symbolOverriderBy lowercase this req = req)
  /\ (base req <> EmptyString ->
      base (symbolOverriderBy lowercase this req) <> EmptyString).
Proof.
  intros _ _ fromRequest fromEndpoint. subst fromRequest fromEndpoint.
  unfold symbolOverriderBy.
  destruct (read (read (bodyOverrides req) (lowercase (name this))) (base req))
    as [[|c1 r1]|];
    destruct (read (overrides this) (base req)) as [[|c2 r2]|];
    cbn [truthy bodyOverrides base];
    repeat split; try reflexivity; try discriminate; try congruence;
    try (intros replacement; congruence);
    try (intros replacement _; congruence);
    auto.
Qed.

(** X23.  The overrides of a request are looked up under the lowercased
    endpoint name only: an entry of [data.overrides] whose key is not in
    lower case is never used, and endpoints whose names differ by letter
    case alone override alike. *)
Theorem request_overrides_matched_in_lowercase
    (this : Endpoint) (key : string) (entry : Overrides)
    (others : list (string * Overrides)) (symbol : string) :
  plain (toLowerCase (name this)) = true ->
  plain symbol = true ->
  toLowerCase key <> key ->
  symbolOverrider this (mkRequest (Some ((key, entry) :: others)) symbol)
  = mkRequest (Some ((key, entry) :: others))
              (base (symbolOverrider this (mkRequest (Some others) symbol)))
  /\ forall other req,
       toLowerCase (name other) = toLowerCase (name this) ->
       overrides other = overrides this ->
       symbolOverrider other req = symbolOverrider this req.
Proof.
  intros _ _ Hkey. split.
  - unfold symbolOverrider. cbn [bodyOverrides base read ownProperty].
    assert (Hmiss : String.eqb key (toLowerCase (name this)) = false).
    { apply String.eqb_neq. intros ->. apply Hkey. apply toLowerCase_idempotent. }
    rewrite Hmiss.
    destruct (read (ownProperty others (toLowerCase (name this))) symbol)
      as [[|c1 r1]|];
      destruct (read (overrides this) symbol) as [[|c2 r2]|]; reflexivity.
  - intros other req Hname Hoverrides. unfold symbolOverrider.
    now rewrite Hname, Hoverrides.
Qed.

(** X22 at work: the request names its own replacement for [ETH]. *)
Lemma symbolOverrider_precedence_witness :
  plain (toLowerCase "Price") = true
  /\ plain "ETH" = true
  /\ base (symbolOverriderBy toLowerCase
             (mkEndpoint "Price" (Some [("ETH", "ethereum")]))
             (mkRequest (Some [("price", [("ETH", "weth")])]) "ETH"))
     = "weth".
Proof.
  split; [reflexivity|]. split; [reflexivity|].
  apply (proj1 (proj2 (symbolOverrider_precedence toLowerCase
                         (mkEndpoint "Price" (Some [("ETH", "ethereum")]))
                         (mkRequest (Some [("price", [("ETH", "weth")])]) "ETH")
                         eq_refl eq_refl)));
    [reflexivity | discriminate].
Defined.

(** X23 at work: overrides given under [Price] are not found. *)
Lemma request_overrides_matched_in_lowercase_witness :
  plain (toLowerCase "Price") = true
  /\ plain "ETH" = true
  /\ toLowerCase "Price" <> "Price"
  /\ symbolOverrider (mkEndpoint "Price" None)
                     (mkRequest (Some [("Price", [("ETH", "weth")])]) "ETH")
     = mkRequest (Some [("Price", [("ETH", "weth")])]) "ETH".
Proof.
  split; [reflexivity|]. split; [reflexivity|]. split; [discriminate|].
  apply (proj1 (request_overrides_matched_in_lowercase
                  (mkEndpoint "Price" None) "Price" [("ETH", "weth")] [] "ETH"
                  eq_refl eq_refl ltac:(discriminate))).
Defined.

End SymbolOverriderFacts.

(** ** Metrics *)

Section MetricsFacts.
Import AdapterEndpoint Metrics.

(** X24.  Whatever the outcome of the request, its labels carry the
    method [POST], the feed id given and a status code, and never the
    labels [retry] and [is_cache_warming]; the type label is filled in as
    soon as the three type names are not empty; and for a request that
    ended in an error the cache-hit flag plays no role. *)
Theorem labels_common_to_every_request
    (types : HttpRequestType) (feed : string) (outcome : ErrorArgument)
    (hit : option bool) :
  let labels := buildHttpRequestMetricsLabel types feed outcome hit in
  method labels = Some "POST"
  /\ feed_id labels = Some feed
  /\ retry labels = None
  /\ is_cache_warming labels = None
  /\ (exists code, status_code labels = Some code)
  /\ (CACHE_HIT types <> EmptyString ->
      DATA_PROVIDER_HIT types <> EmptyString ->
      ADAPTER_ERROR types <> EmptyString ->
      truthy (type labels) = true)
  /\ (outcome <> noError ->
      labels = buildHttpRequestMetricsLabel types feed outcome None).
Proof.
  intros labels. subst labels.
  destruct outcome as [| |label code provider]; cbn.
  - destruct hit as [[]|]; cbn; repeat split; eauto; try congruence;
      intros H1 H2 H3;
      first [now destruct (CACHE_HIT types)
            | now destruct (DATA_PROVIDER_HIT types)].
  - repeat split; eauto. intros _ _ H3. now destruct (ADAPTER_ERROR types).
  - repeat split; eauto. intros _ _ H3.
    destruct (truthy label) eqn:Hlabel; [exact Hlabel|].
    now destruct (ADAPTER_ERROR types).
Qed.

Section Registry.
Context {M : Type}.

Lemma initialize_initialized (this : t M) :
  metrics this <> None -> initialize this = this.
Proof. unfold initialize. now destruct (metrics this). Qed.

Lemma initialize_repeated (metricsDefinition : list (string * M)) (n : nat) :
  Nat.iter (S n) initialize (create metricsDefinition)
  = mk metricsDefinition (Some metricsDefinition) 1%nat.
Proof.
  induction n as [|n IH]; [reflexivity|].
  change (Nat.iter (S (S n)) initialize (create metricsDefinition))
    with (initialize (Nat.iter (S n) initialize (create metricsDefinition))).
  rewrite IH. reflexivity.
Qed.

(** X25.  However often [initialize] is called, the metrics definition
    runs once and its result is what the registry holds; before the first
    [initialize], [get] throws for every name; afterwards it throws for a
    name that the definition does not hold and that no object inherits. *)
Theorem metrics_are_defined_once
    (definition : list (string * M)) (n : nat) (name : string) :
  let registry := Nat.iter (S n) initialize (create definition) in
  definitionsRun registry = 1%nat
  /\ metrics registry = Some definition
  /\ get (create definition) name = Throw (notInitialized name)
  /\ (ownProperty definition name = None ->
      RequestTransforms.plain name = true ->
      get registry name = Throw (notInitialized name)).
Proof.
  intros registry. subst registry. rewrite initialize_repeated.
  split; [reflexivity|]. split; [reflexivity|]. split; [reflexivity|].
  intros Hmissing _. unfold get. cbn [metrics RequestTransforms.read].
  now rewrite Hmissing.
Qed.

Lemma feed_id_of_labels (types : HttpRequestType) (feed : string)
    (outcome : ErrorArgument) (hit : option bool) :
  feed_id (buildHttpRequestMetricsLabel types feed outcome hit) = Some feed.
Proof. destruct outcome; [destruct hit as [[]|]| |]; reflexivity. Qed.

(** X26.  With the two request metrics defined and the registry
    initialized, the middleware counts every request, under a feed id
    that is never empty: [N/A] when the request carries none; a request
    with no context at all is counted as a data provider hit with status
    200.  With a registry that was not initialized the middleware throws. *)
Theorem middleware_counts_every_request
    (types : HttpRequestType) (definition : list (string * M))
    (total duration : M) (meta : option Meta) :
  ownProperty definition "httpRequestsTotal" = Some total ->
  ownProperty definition "httpRequestDurationSeconds" = Some duration ->
  (exists labels feed,
      buildMetricsMiddleware types (initialize (create definition)) meta
      = Return labels
      /\ feed_id labels = Some feed
      /\ feed <> EmptyString)
  /\ buildMetricsMiddleware types (initialize (create definition)) None
     = Return (mkLabels (Some "POST") (Some 200) None
                        (Some (DATA_PROVIDER_HIT types)) None (Some "N/A")
                        (Some 200))
  /\ buildMetricsMiddleware types (create definition) meta
     = Throw (notInitialized "httpRequestsTotal").
Proof.
  intros Htotal Hduration.
  unfold buildMetricsMiddleware, get, initialize, create.
  cbn [metrics RequestTransforms.read metricsDefinition].
  rewrite Htotal, Hduration.
  split; [|split; reflexivity].
  eexists. eexists. split; [reflexivity|].
  rewrite feed_id_of_labels. split; [reflexivity|].
  destruct meta as [[[[[[|c feed]|] hit]|] outcome]|]; discriminate.
Qed.

End Registry.

Section MetricsRuns.

(** X26 at work: the request failed validation and names no feed. *)
Lemma middleware_counts_every_request_witness :
  exists labels,
    buildMetricsMiddleware
      (mkHttpRequestType "cacheHit" "dataProviderHit" "adapterError")
      (initialize (create [("httpRequestsTotal", 1%nat);
                           ("httpRequestDurationSeconds", 2%nat)]))
      (Some (mkMeta None (anAdapterError None 400 None)))
    = Return labels
    /\ feed_id labels = Some "N/A"
    /\ status_code labels = Some 400.
Proof.
  destruct (middleware_counts_every_request
              (mkHttpRequestType "cacheHit" "dataProviderHit" "adapterError")
              [("httpRequestsTotal", 1%nat); ("httpRequestDurationSeconds", 2%nat)]
              1%nat 2%nat (Some (mkMeta None (anAdapterError None 400 None)))
              eq_refl eq_refl)
    as ((labels & feed & Hreturned & _) & _).
  exists labels. split; [exact Hreturned|].
  injection Hreturned as <-. split; reflexivity.
Defined.

End MetricsRuns.

End MetricsFacts.

(** ** The same properties on the feed and on small sets *)

Section FurtherRuns.
Import WebSocketTransport Decisions RedisSubscriptionSet Metrics.

(** X1 at work: the URL for two subscriptions differs from the current. *)
Lemma tick_closes_exactly_when_witness :
  connectionClosed Feed.connected = false
  /\ url Feed.byUrl [7%nat; 8%nat] <> currentUrl Feed.connected
  /\ In WsClose
        (events (streamHandler Feed.byUrl 1000 Feed.reachable
                   (mkClock 200 201 250) Feed.connected
                   (mkDeltas [8%nat] [] [7%nat; 8%nat]))).
Proof.
  split; [reflexivity|]. split; [discriminate|].
  apply (proj2 (tick_closes_exactly_when Feed.byUrl 1000 Feed.reachable
                  (mkClock 200 201 250) Feed.connected
                  (mkDeltas [8%nat] [] [7%nat; 8%nat]))).
  split; [reflexivity|]. left. discriminate.
Defined.

(** X8 at work: a reconnection after the provider dropped the socket
    leaves the deltas alone. *)
Lemma deltas_reassigned_only_on_close_witness :
  ~ In WsClose
       (events (streamHandler Feed.byMessage 1000 Feed.reachable
                  (mkClock 200 201 250) Feed.dropped
                  (mkDeltas [] [9%nat] [7%nat])))
  /\ subscriptions (streamHandler Feed.byMessage 1000 Feed.reachable
                      (mkClock 200 201 250) Feed.dropped
                      (mkDeltas [] [9%nat] [7%nat]))
     = mkDeltas [] [9%nat] [7%nat].
Proof.
  assert (Hquiet :
            ~ In WsClose
                 (events (streamHandler Feed.byMessage 1000 Feed.reachable
                            (mkClock 200 201 250) Feed.dropped
                            (mkDeltas [] [9%nat] [7%nat])))).
  { cbn. intros [Hin|[Hin|[]]]; discriminate. }
  split; [exact Hquiet|].
  apply (deltas_reassigned_only_on_close Feed.byMessage 1000 Feed.reachable
           (mkClock 200 201 250) Feed.dropped (mkDeltas [] [9%nat] [7%nat])).
  exact Hquiet.
Defined.

(** X9 at work: a tick that only sends keeps the URL and the times. *)
Lemma tick_frame_witness :
  (forall u,
      ~ In (WsNew u)
           (events (streamHandler Feed.byMessage 1000 Feed.reachable
                      (mkClock 200 201 250) Feed.connected
                      (mkDeltas [] [9%nat] [7%nat]))))
  /\ connectionOpenedAt
       (state (streamHandler Feed.byMessage 1000 Feed.reachable
                 (mkClock 200 201 250) Feed.connected
                 (mkDeltas [] [9%nat] [7%nat]))) = 150.
Proof.
  assert (Hnone :
            forall u,
              ~ In (WsNew u)
                   (events (streamHandler Feed.byMessage 1000 Feed.reachable
                              (mkClock 200 201 250) Feed.connected
                              (mkDeltas [] [9%nat] [7%nat])))).
  { intros u. cbn. intros [Hin|[]]. discriminate. }
  split; [exact Hnone|].
  apply (tick_frame Feed.byMessage 1000 Feed.reachable
           (mkClock 200 201 250) Feed.connected (mkDeltas [] [9%nat] [7%nat])).
  exact Hnone.
Defined.

(** X10 at work: a frame that is no JSON. *)
Lemma onMessage_stamps_what_the_handler_returns_witness :
  deserializeMessage (W:=nat) "price" = None
  /\ after (onMessage Feed.byMessage Feed.connected "price" 300 301) = Feed.connected
  /\ written (onMessage Feed.byMessage Feed.connected "price" 300 301) = None.
Proof.
  split; [reflexivity|].
  destruct (onMessage_stamps_what_the_handler_returns
              Feed.byMessage Feed.connected "price" 300 301)
    as (Hnothing & _).
  apply Hnothing. reflexivity.
Defined.

(** X11 at work: the expiry of a member is replaced by an earlier one. *)
Lemma add_leaves_one_entry_for_member_witness :
  In ("k>1", 110) (add [] "k" 1%nat 10 100)
  /\ forall score,
       In (storedValue "k" 1%nat, score)
          (add (add [] "k" 1%nat 10 100) "k" 1%nat 5 101) ->
       score = 101 + 5.
Proof.
  split; [left; reflexivity|].
  exact (proj2 (add_leaves_one_entry_for_member
                  (add [] "k" 1%nat 10 100) "k" 1%nat 5 101)).
Defined.

(** X24 at work: an error that is no [AdapterError], flagged as a hit. *)
Lemma labels_common_to_every_request_witness :
  anError <> noError
  /\ buildHttpRequestMetricsLabel
       (mkHttpRequestType "cacheHit" "dataProviderHit" "adapterError")
       "eth-usd" anError (Some true)
     = buildHttpRequestMetricsLabel
         (mkHttpRequestType "cacheHit" "dataProviderHit" "adapterError")
         "eth-usd" anError None.
Proof.
  split; [discriminate|].
  apply (labels_common_to_every_request
           (mkHttpRequestType "cacheHit" "dataProviderHit" "adapterError")
           "eth-usd" anError (Some true)).
  discriminate.
Defined.

(** X25 at work: a name that was never defined, after two calls. *)
Lemma metrics_are_defined_once_witness :
  AdapterEndpoint.ownProperty [("httpRequestsTotal", 1%nat)] "cacheHits" = None
  /\ RequestTransforms.plain "cacheHits" = true
  /\ get (Nat.iter 2 initialize (create [("httpRequestsTotal", 1%nat)])) "cacheHits"
     = Throw (notInitialized "cacheHits").
Proof.
  split; [reflexivity|]. split; [reflexivity|].
  apply (metrics_are_defined_once [("httpRequestsTotal", 1%nat)] 1 "cacheHits");
    reflexivity.
Defined.

End FurtherRuns.
